(** * SEO heuristic analysis engine of the Streamlit blog-article app

    A shallow embedding of the deterministic part of [utils.py]
    ([ClaudeClient.evaluate_seo_title], the three [SEOAnalyzer] methods and
    [MarkdownProcessor.add_toc_if_needed]) together with the properties the
    specification states about them.

    Python values are modelled as follows.
    - [str] is a sequence of Unicode code points: [list N].
    - [int] is [Z].
    - [float] is IEEE 754 binary64, through the executable [spec_float]
      operations of the standard library at precision 53 and [emax] 1024.
    - A value that is an [int] on one path and a [float] on another
      (the averages and the density) is a [pynum].
    - The Unicode character database consulted by [str.lower],
      [str.isdigit] and the regex class [\w] belongs to the interpreter,
      not to the repository; it is the parameter [UnicodeData]. *)

From Stdlib Require Import Strings.String Strings.Ascii.
From Stdlib Require Import List ZArith NArith Bool Lia.
From Stdlib Require Import Floats.SpecFloat.
Import ListNotations.

Set Implicit Arguments.

(** ** Python strings *)

Module PyStr.

Definition codepoint := N.
Definition str := list codepoint.

(** Literals are written as UTF-8 text and decoded to code points. *)
Fixpoint utf8_go (need : nat) (acc : N) (bs : list N) : str :=
  match bs with
  | [] => []
  | b :: bs' =>
      match need with
      | O =>
          if (b <? 128)%N then b :: utf8_go 0 0%N bs'
          else if (b <? 224)%N then utf8_go 1 (b mod 32)%N bs'
          else if (b <? 240)%N then utf8_go 2 (b mod 16)%N bs'
          else utf8_go 3 (b mod 8)%N bs'
      | S O => (acc * 64 + b mod 64)%N :: utf8_go 0 0%N bs'
      | S k => utf8_go k (acc * 64 + b mod 64)%N bs'
      end
  end.

Definition lit (s : string) : str :=
  utf8_go 0 0%N (map N_of_ascii (list_ascii_of_string s)).

Definition nl : codepoint := 10%N.
Definition space : codepoint := 32%N.
Definition hash : codepoint := 35%N.

(** [len(s)] on a string and on a list *)
Definition len (s : str) : Z := Z.of_nat (length s).
Definition len_list (l : list str) : Z := Z.of_nat (length l).

(** The truth value of a string: it is not empty. *)
Definition truthy (s : str) : bool :=
  match s with
  | [] => false
  | _ :: _ => true
  end.

(** [s.startswith(p)] *)
Fixpoint startswith (p s : str) : bool :=
  match p, s with
  | [], _ => true
  | _ :: _, [] => false
  | a :: p', b :: s' => (a =? b)%N && startswith p' s'
  end.

(** [sub in s]: substring test *)
Fixpoint contains (sub s : str) : bool :=
  startswith sub s ||
  match s with
  | [] => false
  | _ :: s' => contains sub s'
  end.

(** [s.count(sub)]: non-overlapping occurrences, scanned left to right;
    the empty substring is found at every position, [len(s) + 1] times. *)
Fixpoint count_from (sub : str) (skip : nat) (s : str) : nat :=
  match s with
  | [] => 0
  | c :: s' =>
      match skip with
      | S k => count_from sub k s'
      | O =>
          if startswith sub (c :: s')
          then S (count_from sub (length sub - 1) s')
          else count_from sub 0 s'
      end
  end.

Definition count (s sub : str) : Z :=
  match sub with
  | [] => len s + 1
  | _ :: _ => Z.of_nat (count_from sub 0 s)
  end.

(** [str.isspace] for one character; the regex class [\s] on [str]
    patterns tests the same property. *)
Definition is_space (c : codepoint) : bool :=
  ((9 <=? c) && (c <=? 13) || (28 <=? c) && (c <=? 32) ||
   (c =? 133) || (c =? 160) || (c =? 5760) ||
   (8192 <=? c) && (c <=? 8202) || (c =? 8232) || (c =? 8233) ||
   (c =? 8239) || (c =? 8287) || (c =? 12288))%N.

Fixpoint lstrip (s : str) : str :=
  match s with
  | [] => []
  | c :: s' => if is_space c then lstrip s' else s
  end.

(** [s.strip()] *)
Definition strip (s : str) : str := rev (lstrip (rev (lstrip s))).

(** [s.replace(old, new)] for a one-character [old] *)
Definition replace (old : codepoint) (new : str) (s : str) : str :=
  flat_map (fun c => if (c =? old)%N then new else [c]) s.

(** [sep.join(parts)] *)
Fixpoint join (sep : str) (parts : list str) : str :=
  match parts with
  | [] => []
  | [p] => p
  | p :: rest => p ++ sep ++ join sep rest
  end.

(** [s.split(c)] for a one-character separator: never empty. *)
Fixpoint split_char (c : codepoint) (cur : str) (s : str) : list str :=
  match s with
  | [] => [rev cur]
  | x :: s' =>
      if (x =? c)%N then rev cur :: split_char c [] s'
      else split_char c (x :: cur) s'
  end.

Definition lines (s : str) : list str := split_char nl [] s.

(** [s.split(sep, 1)]: one element when [sep] does not occur, otherwise
    the text before and the text after its first occurrence. *)
Fixpoint split_once (sep : str) (cur : str) (s : str) : list str :=
  if startswith sep s then [rev cur; skipn (length sep) s]
  else
    match s with
    | [] => [rev cur]
    | x :: s' => split_once sep (x :: cur) s'
    end.

(** [s * n] *)
Fixpoint repeat_str (s : str) (n : nat) : str :=
  match n with
  | O => []
  | S k => s ++ repeat_str s k
  end.

End PyStr.

Import PyStr.

(** ** The interpreter's Unicode database *)

Record UnicodeData := {
  to_lower_full : codepoint -> str;      (* full lower-case mapping *)
  is_cased : codepoint -> bool;          (* property Cased *)
  is_case_ignorable : codepoint -> bool; (* property Case_Ignorable *)
  is_digit : codepoint -> bool;          (* [str.isdigit] on one character *)
  is_alnum : codepoint -> bool           (* [str.isalnum] on one character *)
}.

(** The Basic Latin block of the database; every other code point is left
    uncased and unclassified.  It serves to run the functions on examples. *)
Definition is_upper_ascii (c : codepoint) : bool := ((65 <=? c) && (c <=? 90))%N.
Definition is_lower_ascii (c : codepoint) : bool := ((97 <=? c) && (c <=? 122))%N.
Definition is_digit_ascii (c : codepoint) : bool := ((48 <=? c) && (c <=? 57))%N.
Definition ascii_lower (c : codepoint) : codepoint :=
  if is_upper_ascii c then (c + 32)%N else c.

Definition basic_latin : UnicodeData := {|
  to_lower_full := fun c => [ascii_lower c];
  is_cased := fun c => is_upper_ascii c || is_lower_ascii c;
  is_case_ignorable := fun c =>
    ((c =? 39) || (c =? 46) || (c =? 58) || (c =? 94) || (c =? 96))%N;
  is_digit := is_digit_ascii;
  is_alnum := fun c => is_upper_ascii c || is_lower_ascii c || is_digit_ascii c
|}.

Section Lower.
Variable U : UnicodeData.

(** The first character of [s] that is not case-ignorable. *)
Fixpoint first_not_ignorable (s : str) : option codepoint :=
  match s with
  | [] => None
  | c :: s' => if is_case_ignorable U c then first_not_ignorable s' else Some c
  end.

(** U+03A3 lower-cases to the final sigma U+03C2 when a cased letter
    precedes it and none follows (case-ignorable characters skipped).
    [before] is the text to the left, nearest character first. *)
Definition lower_sigma (before after : str) : codepoint :=
  let preceded :=
    match first_not_ignorable before with
    | Some c => is_cased U c
    | None => false
    end in
  let followed :=
    match first_not_ignorable after with
    | Some c => is_cased U c
    | None => false
    end in
  if preceded && negb followed then 962%N else 963%N.

Fixpoint lower_from (before : str) (s : str) : str :=
  match s with
  | [] => []
  | c :: s' =>
      (if (c =? 931)%N then [lower_sigma before s'] else to_lower_full U c)
        ++ lower_from (c :: before) s'
  end.

(** [s.lower()] *)
Definition lower (s : str) : str := lower_from [] s.

(** [any(c.isdigit() for c in s)] *)
Definition any_digit (s : str) : bool := existsb (is_digit U) s.

(** The regex class [\w]. *)
Definition is_word (c : codepoint) : bool := is_alnum U c || (c =? 95)%N.
End Lower.

(** ** Python numbers *)

Module PyNum.

Definition prec : Z := 53.
Definition emax : Z := 1024.
Definition float := spec_float.

(** [float(z)], rounded to nearest even when [z] needs more than 53 bits. *)
Definition of_int (z : Z) : float := binary_normalize prec emax z 0 false.

Definition fmul : float -> float -> float := SFmul prec emax.
Definition fdiv : float -> float -> float := SFdiv prec emax.
Definition fltb : float -> float -> bool := SFltb.

(** [a / b] on two [int]s: the exact quotient rounded once to binary64.
    Python raises [ZeroDivisionError] when [b] is 0; every division of the
    program is guarded by [b > 0], and the model returns NaN there. *)
Definition int_truediv (a b : Z) : float :=
  match a, b with
  | _, Z0 => S754_nan
  | Z0, _ => S754_zero (b <? 0)%Z
  | _, _ =>
      fdiv (S754_finite (a <? 0)%Z (Z.to_pos (Z.abs a)) 0)
           (S754_finite (b <? 0)%Z (Z.to_pos (Z.abs b)) 0)
  end.

(** [n / d] for [d > 0], rounded to the nearest integer, ties to even. *)
Definition round_half_even (n d : Z) : Z :=
  let q := (n / d)%Z in
  let r := (n mod d)%Z in
  match (2 * r ?= d)%Z with
  | Lt => q
  | Gt => (q + 1)%Z
  | Eq => if Z.even q then q else (q + 1)%Z
  end.

(** [round(x, 2)] on a [float]: the exact binary value is rounded to the
    nearest multiple of 1/100 (ties to even), and that decimal is converted
    back to the nearest binary64 number. *)
Definition float_round2 (x : float) : float :=
  match x with
  | S754_finite s m e =>
      let n :=
        match e with
        | Zneg p => round_half_even (Zpos m * 100) (2 ^ Zpos p)
        | _ => (Zpos m * 100 * 2 ^ e)%Z
        end in
      match n with
      | Zpos k => fdiv (S754_finite s k 0) (of_int 100)
      | _ => S754_zero s
      end
  | _ => x
  end.

(** A number that is an [int] or a [float]. *)
Inductive pynum :=
| PyInt (z : Z)
| PyFloat (x : float).

Definition to_float (a : pynum) : float :=
  match a with
  | PyInt z => of_int z
  | PyFloat x => x
  end.

(** [a < b].  A comparison between an [int] and a [float] is exact in
    Python; the [int]s compared with [float]s in this program are 0, 50 and
    120, which convert without rounding. *)
Definition num_lt (a b : pynum) : bool :=
  match a, b with
  | PyInt x, PyInt y => (x <? y)%Z
  | _, _ => fltb (to_float a) (to_float b)
  end.

Definition num_gt (a b : pynum) : bool := num_lt b a.

(** [round(a, 2)]: an [int] is returned as it is. *)
Definition round2 (a : pynum) : pynum :=
  match a with
  | PyInt z => PyInt z
  | PyFloat x => PyFloat (float_round2 x)
  end.

(** The literals [0.5], [3.0] and [0.3]. *)
Definition f0_5 : float := S754_finite false 4503599627370496 (-53).
Definition f3_0 : float := S754_finite false 6755399441055744 (-51).
Definition f0_3 : float := S754_finite false 5404319552844595 (-54).

End PyNum.

Import PyNum.

(** ** The regular expressions of the program

    Each pattern is embedded as the scan the regex engine performs for it:
    leftmost match first, greedy repetition, backtracking where the pattern
    allows it, and the search resumed at the end of the previous match. *)

Module Re.

(** [re.sub(r'#|\*|_|-|\[|\]|\(|\)|`', '', text)] *)
Definition is_markup (c : codepoint) : bool :=
  ((c =? 35) || (c =? 42) || (c =? 95) || (c =? 45) || (c =? 91) ||
   (c =? 93) || (c =? 40) || (c =? 41) || (c =? 96))%N.

Definition sub_markup (text : str) : str :=
  filter (fun c => negb (is_markup c)) text.

(** [re.findall(r'\w+', s)]: the maximal runs of word characters. *)
Fixpoint findall_words (U : UnicodeData) (cur : str) (s : str) : list str :=
  match s with
  | [] =>
      match cur with
      | [] => []
      | _ :: _ => [rev cur]
      end
  | c :: s' =>
      if is_word U c then findall_words U (c :: cur) s'
      else
        match cur with
        | [] => findall_words U [] s'
        | _ :: _ => rev cur :: findall_words U [] s'
        end
  end.

(** [len(re.findall('^' + pat, s, re.MULTILINE))] for a literal, non-empty
    [pat]: [^] holds at the start of the text and after every line feed.
    [bol] tells whether the current position is such a place and [skip]
    counts the characters of the previous match still to be passed. *)
Fixpoint count_bol (pat : str) (bol : bool) (skip : nat) (s : str) : nat :=
  match s with
  | [] => 0
  | c :: s' =>
      match skip with
      | S k => count_bol pat (c =? nl)%N k s'
      | O =>
          if bol && startswith pat (c :: s')
          then S (count_bol pat (c =? nl)%N (length pat - 1) s')
          else count_bol pat (c =? nl)%N 0 s'
      end
  end.

Definition findall_bol_count (pat s : str) : Z :=
  Z.of_nat (count_bol pat true 0 s).

(** The number of characters [\s*\n] consumes at the head of [s], with the
    greedy [\s*] giving characters back until a line feed follows. *)
Fixpoint blank_tail (s : str) : option nat :=
  match s with
  | [] => None
  | c :: s' =>
      if is_space c then
        match blank_tail s' with
        | Some n => Some (S n)
        | None => if (c =? nl)%N then Some 1 else None
        end
      else None
  end.

(** [re.split(r'\n\s*\n', s)] *)
Fixpoint split_blank (skip : nat) (cur : str) (s : str) : list str :=
  match s with
  | [] => [rev cur]
  | c :: s' =>
      match skip with
      | S k => split_blank k cur s'
      | O =>
          match (if (c =? nl)%N then blank_tail s' else None) with
          | Some n => rev cur :: split_blank n [] s'
          | None => split_blank 0 (c :: cur) s'
          end
      end
  end.

(** The class [[。.!?！？]]. *)
Definition is_terminator (c : codepoint) : bool :=
  ((c =? 12290) || (c =? 46) || (c =? 33) || (c =? 63) ||
   (c =? 65281) || (c =? 65311))%N.

(** [re.split(r'[。.!?！？]+', s)]; [in_sep] holds inside a run of
    terminators, which is one separator. *)
Fixpoint split_terminators (in_sep : bool) (cur : str) (s : str) : list str :=
  match s with
  | [] => [rev cur]
  | c :: s' =>
      if is_terminator c then
        if in_sep then split_terminators true [] s'
        else rev cur :: split_terminators true [] s'
      else split_terminators false (c :: cur) s'
  end.

(** [(.+)$] at the head of [s]: the dot does not match a line feed and [$]
    holds at the end of the text or before a line feed that ends it. *)
Fixpoint dot_run (s : str) : str * str :=
  match s with
  | [] => ([], [])
  | c :: s' =>
      if (c =? nl)%N then ([], s)
      else let '(d, r) := dot_run s' in (c :: d, r)
  end.

Definition dot_plus_eol (s : str) : option str :=
  let '(d, r) := dot_run s in
  match d, r with
  | _ :: _, [] => Some d
  | _ :: _, [_] => Some d
  | _, _ => None
  end.

(** [\s*(.+)$] and [\s+(.+)$]: the greedy whitespace run is shortened from
    the right until the rest matches. *)
Fixpoint spaces_then_rest (s : str) : option str :=
  match s with
  | [] => None
  | c :: s' =>
      if is_space c then
        match spaces_then_rest s' with
        | Some g => Some g
        | None => dot_plus_eol s
        end
      else dot_plus_eol s
  end.

Definition space_plus_rest (s : str) : option str :=
  match s with
  | [] => None
  | c :: s' => if is_space c then spaces_then_rest s' else None
  end.

(** [#{k}] followed by [\s+(.+)$]. *)
Definition hashes_then (k : nat) (line : str) : option (nat * str) :=
  if startswith (repeat hash k) line then
    match space_plus_rest (skipn k line) with
    | Some g => Some (k, g)
    | None => None
    end
  else None.

(** [re.match(r'^(#{1,3})\s+(.+)$', line)]: the length of group 1 and
    group 2.  The greedy [#{1,3}] tries three, two, then one. *)
Definition match_heading (line : str) : option (nat * str) :=
  match hashes_then 3 line with
  | Some r => Some r
  | None =>
      match hashes_then 2 line with
      | Some r => Some r
      | None => hashes_then 1 line
      end
  end.

End Re.

Import Re.

(** ** [ClaudeClient.evaluate_seo_title] *)

Record TitleScore := {
  score : Z;
  comment : str
}.

Definition click_bait_words : list str :=
  map lit ["方法"; "コツ"; "秘訣"; "完全"; "ガイド"; "最高"; "効果";
           "おすすめ"; "人気"; "必須"]%string.

(** The running pair of [score] and [comments]. *)
Definition Eval := (Z * list str)%type.

Definition deduct (cond : bool) (points : Z) (note : string) (st : Eval) : Eval :=
  if cond then (fst st - points, snd st ++ [lit note])%Z else st.

Section TitleScorer.
Variable U : UnicodeData.

Definition check_keyword (title main_keyword : str) : Eval -> Eval :=
  deduct (negb (contains (lower U main_keyword) (lower U title)))
         30 "メインキーワードが含まれていません".

Definition check_length (title : str) (st : Eval) : Eval :=
  let title_length := len title in
  if (title_length >? 35)%Z then
    deduct true 15 "タイトルが長すぎます（30文字以下が望ましい）" st
  else if (title_length <? 10)%Z then
    deduct true 10 "タイトルが短すぎます" st
  else st.

Definition check_digit (title : str) : Eval -> Eval :=
  deduct (negb (any_digit U title))
         5 "数字を含めるとCTRが向上する可能性があります".

Definition check_click_bait (title : str) : Eval -> Eval :=
  deduct (negb (existsb (fun word => contains word title) click_bait_words))
         5 "魅力的な表現を追加するとよいでしょう".

Definition raw_score (title main_keyword : str) : Eval :=
  check_click_bait title
    (check_digit title
       (check_length title
          (check_keyword title main_keyword (100%Z, [])))).

Definition evaluate_seo_title (title main_keyword : str) : TitleScore :=
  let '(score0, comments) := raw_score title main_keyword in
  let score := Z.max 0 (Z.min 100 score0) in
  let summary :=
    if (score >=? 80)%Z then
      match comments with
      | [] => lit "優れたSEOタイトルです"
      | _ :: _ => lit "良いタイトルですが、改善の余地があります"
      end
    else if (score >=? 60)%Z then
      lit "平均的なSEOタイトルです。改善点があります"
    else lit "SEO観点から改善が必要です" in
  let comment :=
    match comments with
    | [] => summary
    | _ :: _ => summary ++ lit ": " ++ join (lit " / ") comments
    end in
  {| score := score; comment := comment |}.

End TitleScorer.

(** ** [SEOAnalyzer] *)

Record KeywordDensity := {
  keyword_count : Z;
  total_words : Z;
  density : pynum;
  recommendation : str
}.

Definition analyze_keyword_density (U : UnicodeData) (text keyword : str)
  : KeywordDensity :=
  let clean_text := sub_markup text in
  let words := findall_words U [] clean_text in
  let total_words := len_list words in
  let keyword_lower := lower U keyword in
  let text_lower := lower U clean_text in
  let keyword_count := count text_lower keyword_lower in
  let density :=
    if (total_words >? 0)%Z
    then PyFloat (fmul (int_truediv keyword_count total_words) (of_int 100))
    else PyInt 0 in
  let recommendation :=
    if num_lt density (PyFloat f0_5) then
      lit "キーワード密度が低すぎます。記事内でキーワードをもう少し使用することを検討してください。"
    else if num_gt density (PyFloat f3_0) then
      lit "キーワード密度が高すぎる可能性があります。自然な文章になるよう調整してください。"
    else lit "キーワード密度は適切な範囲内です。" in
  {| keyword_count := keyword_count;
     total_words := total_words;
     density := round2 density;
     recommendation := recommendation |}.

Record HeadingCounts := {
  h1 : Z; h2 : Z; h3 : Z; h4 : Z; h5 : Z; h6 : Z
}.

Record HeadingStructure := {
  counts : HeadingCounts;
  has_h1 : bool;
  has_h2 : bool;
  too_many_h1 : bool;
  is_good_structure : bool
}.

(** The pattern text after [^]: [level] number signs and one space. *)
Definition heading_prefix (level : nat) : str := repeat hash level ++ [space].

Definition analyze_headings (text : str) : HeadingStructure :=
  let h1_count := findall_bol_count (heading_prefix 1) text in
  let h2_count := findall_bol_count (heading_prefix 2) text in
  let h3_count := findall_bol_count (heading_prefix 3) text in
  let h4_count := findall_bol_count (heading_prefix 4) text in
  let h5_count := findall_bol_count (heading_prefix 5) text in
  let h6_count := findall_bol_count (heading_prefix 6) text in
  let has_h1 := (h1_count >? 0)%Z in
  let has_h2 := (h2_count >? 0)%Z in
  let too_many_h1 := (h1_count >? 1)%Z in
  let is_good_structure := has_h1 && has_h2 && negb too_many_h1 in
  {| counts := {| h1 := h1_count; h2 := h2_count; h3 := h3_count;
                  h4 := h4_count; h5 := h5_count; h6 := h6_count |};
     has_h1 := has_h1;
     has_h2 := has_h2;
     too_many_h1 := too_many_h1;
     is_good_structure := is_good_structure |}.

Record Readability := {
  paragraph_count : Z;
  sentence_count : Z;
  long_paragraphs_count : Z;
  avg_paragraph_length : pynum;
  avg_sentence_length : pynum;
  is_good_readability : bool
}.

(** [[p.strip() for p in parts if p.strip()]] *)
Definition stripped_nonempty (parts : list str) : list str :=
  map strip (filter (fun p => truthy (strip p)) parts).

(** [sum(len(p) for p in parts)] *)
Definition sum_len (parts : list str) : Z :=
  fold_right (fun p acc => (len p + acc)%Z) 0%Z parts.

Definition analyze_readability (text : str) : Readability :=
  let clean_text := sub_markup text in
  let paragraphs := stripped_nonempty (split_blank 0 [] clean_text) in
  let paragraph_count := len_list paragraphs in
  let sentences := stripped_nonempty (split_terminators false [] clean_text) in
  let sentence_count := len_list sentences in
  let long_paragraphs_count :=
    len_list (filter (fun p => (len p >? 100)%Z) paragraphs) in
  let avg_paragraph_length :=
    if (paragraph_count >? 0)%Z
    then PyFloat (int_truediv (sum_len paragraphs) paragraph_count)
    else PyInt 0 in
  let avg_sentence_length :=
    if (sentence_count >? 0)%Z
    then PyFloat (int_truediv (sum_len sentences) sentence_count)
    else PyInt 0 in
  let is_good_readability :=
    if (paragraph_count >? 0)%Z
    then num_lt avg_paragraph_length (PyInt 120) &&
         num_lt avg_sentence_length (PyInt 50) &&
         num_lt (PyFloat (int_truediv long_paragraphs_count paragraph_count))
            (PyFloat f0_3)
    else true in
  {| paragraph_count := paragraph_count;
     sentence_count := sentence_count;
     long_paragraphs_count := long_paragraphs_count;
     avg_paragraph_length := avg_paragraph_length;
     avg_sentence_length := avg_sentence_length;
     is_good_readability := is_good_readability |}.

(** ** [MarkdownProcessor.add_toc_if_needed] *)

Definition toc_marker : str := lit "## 目次".
Definition toc_marker_tight : str := lit "##目次".

(** The [(level, text)] pairs of the level-2 and level-3 heading lines. *)
Fixpoint extract_headings (lines : list str) : list (nat * str) :=
  match lines with
  | [] => []
  | line :: rest =>
      match match_heading line with
      | Some (level, g2) =>
          let text := strip g2 in
          if (1 <? level)%nat then (level, text) :: extract_headings rest
          else extract_headings rest
      | None => extract_headings rest
      end
  end.

Definition toc_entry (U : UnicodeData) (h : nat * str) : str :=
  let '(level, text) := h in
  let indent := repeat_str (lit "  ") (level - 2) in
  let link_text := replace 93%N [] (replace 91%N [] text) in
  let anchor := replace space (lit "-") (lower U link_text) in
  indent ++ lit "- [" ++ link_text ++ lit "](#" ++ anchor ++ lit ")".

Definition add_toc_if_needed (U : UnicodeData) (markdown_text : str) : str :=
  if contains toc_marker markdown_text || contains toc_marker_tight markdown_text
  then markdown_text
  else
    let headings := extract_headings (lines markdown_text) in
    match headings with
    | [] => markdown_text
    | _ :: _ =>
        let toc := [toc_marker; []] ++ map (toc_entry U) headings ++ [[]] in
        match split_once [nl; nl] [] markdown_text with
        | [title_part; body_part] =>
            title_part ++ [nl; nl] ++ join [nl] toc ++ [nl; nl] ++ body_part
        | _ => markdown_text ++ [nl; nl] ++ join [nl] toc
        end
    end.

(** ** More of Python's strings and dictionaries *)

Module PyMore.

(** [a == b] on strings *)
Fixpoint str_eqb (a b : str) : bool :=
  match a, b with
  | [], [] => true
  | x :: a', y :: b' => (x =? y)%N && str_eqb a' b'
  | _, _ => false
  end.

(** [s.endswith(p)] *)
Definition endswith (p s : str) : bool := startswith (rev p) (rev s).

(** [s[a:-b]] for [b > 0]: from index [a] to [b] characters before the
    end, empty when the two bounds cross. *)
Definition slice (a b : nat) (s : str) : str :=
  firstn (length s - b - a) (skipn a s).

(** The text from its first character that fails [p]. *)
Fixpoint drop_while (p : codepoint -> bool) (s : str) : str :=
  match s with
  | [] => []
  | c :: s' => if p c then drop_while p s' else s
  end.

(** The text without the characters satisfying [p] at its two ends. *)
Definition trim (p : codepoint -> bool) (s : str) : str :=
  rev (drop_while p (rev (drop_while p s))).

(** [s.strip(c)] for a one-character argument *)
Definition strip_char (c : codepoint) (s : str) : str :=
  trim (fun x => (x =? c)%N) s.

(** A [dict] with string keys, in insertion order. *)
Definition dict (V : Type) : Type := list (str * V).

(** [d[k] = v] *)
Fixpoint dict_set {V : Type} (d : dict V) (k : str) (v : V) : dict V :=
  match d with
  | [] => [(k, v)]
  | (k', v') :: d' =>
      if str_eqb k' k then (k', v) :: d' else (k', v') :: dict_set d' k v
  end.

(** [d.get(k)], [None] when the key is missing *)
Fixpoint dict_get {V : Type} (d : dict V) (k : str) : option V :=
  match d with
  | [] => None
  | (k', v') :: d' => if str_eqb k' k then Some v' else dict_get d' k
  end.

End PyMore.

Import PyMore.

(** ** [ClaudeClient.generate_titles] and [ClaudeClient.generate_article]

    Both send a prompt to the API and work on the text of the answer.  The
    answer is the argument of the models below. *)

(** [', '.join(related_keywords) if related_keywords else 'なし'], the
    keyword line of both prompts *)
Definition related_keywords_str (related_keywords : list str) : str :=
  match related_keywords with
  | [] => lit "なし"
  | _ :: _ => join (lit ", ") related_keywords
  end.

(** The body of the loop over the lines of [content] in the fallback of
    [generate_titles]: the titles the line adds. *)
Definition fallback_line (line0 : str) : list str :=
  let line := strip line0 in
  if truthy line && negb (startswith (lit "{") line)
                 && negb (startswith (lit "}") line)
  then
    let clean_line := strip_char 44%N (strip_char 39%N (strip_char 34%N line)) in
    if truthy clean_line then [clean_line] else []
  else [].

(** The text fallback of [generate_titles], used when [content] holds no
    JSON: one title per usable line, five at most. *)
Definition fallback_titles (content : str) : list str :=
  firstn 5 (flat_map fallback_line (lines content)).

Definition fence : str := lit "```".
Definition fence_markdown : str := lit "```markdown".

(** What [generate_article] returns for the answer of the API: [Some] text,
    or [None] when the call raised.  The text is stripped and a code fence
    around it is cut off. *)
Definition generate_article (response : option str) : str :=
  match response with
  | None => []
  | Some text =>
      let article := strip text in
      if startswith fence_markdown article && endswith fence article
      then strip (slice 10 3 article)
      else if startswith fence article && endswith fence article
      then strip (slice 3 3 article)
      else article
  end.

(** ** [app.py] *)

(** The related keywords of [show_keyword_input], from the comma-separated
    input field. *)
Definition parse_related_keywords (related_keywords_input : str) : list str :=
  if truthy related_keywords_input
  then stripped_nonempty (split_char 44%N [] related_keywords_input)
  else [].

(** [title_scores], filled by the loop over the generated titles. *)
Definition build_title_scores (U : UnicodeData) (titles : list str)
    (main_keyword : str) : dict TitleScore :=
  fold_left
    (fun title_scores title =>
       dict_set title_scores title (evaluate_seo_title U title main_keyword))
    titles [].

(** [title_scores.get(title, {"score": 0, "comment": "評価なし"})] *)
Definition score_data (title_scores : dict TitleScore) (title : str)
  : TitleScore :=
  match dict_get title_scores title with
  | Some r => r
  | None => {| score := 0; comment := lit "評価なし" |}
  end.

(** The colour of a score in [show_title_selection]. *)
Definition score_color (score : Z) : str :=
  if (score >=? 80)%Z then lit "green"
  else if (score >=? 60)%Z then lit "orange"
  else lit "red".

(** A message of the analysis tab. *)
Inductive notice :=
| Success (message : str)
| Warning (message : str).

(** The messages [show_article_view] prints for the record of a heading
    analysis; the defaults of its [.get] calls serve a missing key only. *)
Definition heading_notices (headings_data : HeadingStructure) : list notice :=
  if is_good_structure headings_data
  then [Success (lit "見出し構造は適切です")]
  else
    (if negb (has_h1 headings_data)
     then [Warning (lit "H1見出し（タイトル）がありません")] else []) ++
    (if negb (has_h2 headings_data)
     then [Warning (lit "H2見出しがありません")] else []) ++
    (if too_many_h1 headings_data
     then [Warning (lit "H1見出しが複数あります（通常は1つが推奨）")] else []).

(** ** Vocabulary of the properties *)

(** The database says of the character [c] that it has no case and is no
    digit, as Unicode does of kana and kanji. *)
Definition uncased_nondigit (U : UnicodeData) (c : codepoint) : Prop :=
  to_lower_full U c = [c] /\ is_digit U c = false.

(** The number of number signs a line begins with. *)
Fixpoint leading_hashes (l : str) : nat :=
  match l with
  | [] => 0
  | c :: l' => if (c =? hash)%N then S (leading_hashes l') else 0
  end.

(** The line begins with exactly [k] number signs and then a space. *)
Definition is_level_line (k : nat) (l : str) : bool :=
  (leading_hashes l =? k)%nat && startswith [space] (skipn k l).

(** The lines of [text] that are headings of level [k]. *)
Definition level_lines (k : nat) (text : str) : list str :=
  filter (is_level_line k) (lines text).

(** The count reported for level [k], 1 to 6. *)
Definition level_count (k : nat) (c : HeadingCounts) : Z :=
  match k with
  | 1 => h1 c
  | 2 => h2 c
  | 3 => h3 c
  | 4 => h4 c
  | 5 => h5 c
  | 6 => h6 c
  | _ => 0%Z
  end.

(** The database lower-cases the Basic Latin block as Unicode does. *)
Definition basic_latin_lower (U : UnicodeData) : Prop :=
  forall c, (c < 128)%N -> to_lower_full U c = [ascii_lower c].

(** [keyword_count / total_words * 100] in binary64. *)
Definition percentage (keyword_count total_words : Z) : float :=
  fmul (int_truediv keyword_count total_words) (of_int 100).

(** The density as the specification words it: the percentage rounded to
    two decimals when there is a word, 0 otherwise. *)
Definition density_spec (keyword_count total_words : Z) : pynum :=
  if (total_words >? 0)%Z
  then round2 (PyFloat (percentage keyword_count total_words))
  else PyInt 0.

(** The readability verdict as the specification words it, over the
    fields of the result. *)
Definition good_readability_spec (r : Readability) : bool :=
  num_lt (avg_paragraph_length r) (PyInt 120) &&
  num_lt (avg_sentence_length r) (PyInt 50) &&
  ((paragraph_count r =? 0)%Z ||
   num_lt (PyFloat (int_truediv (long_paragraphs_count r) (paragraph_count r)))
          (PyFloat f0_3)).

(** A Basic Latin string. *)
Definition is_basic_latin (s : str) : Prop := Forall (fun c => (c < 128)%N) s.

(** The word ["k "] 23 times and the word ["w "] 137 times. *)
Definition text_23_of_160 : str :=
  repeat_str (lit "k ") 23 ++ repeat_str (lit "w ") 137.

(** A string of whitespace only. *)
Definition all_space (s : str) : Prop := Forall (fun c => is_space c = true) s.

(** ** Vocabulary of the further properties *)

(** The points the length of a title costs. *)
Definition length_penalty (title : str) : Z :=
  if (len title >? 35)%Z then 15
  else if (len title <? 10)%Z then 10
  else 0.

(** The main keyword occurs in the title, letter case aside. *)
Definition has_keyword (U : UnicodeData) (title main_keyword : str) : bool :=
  contains (lower U main_keyword) (lower U title).

(** The title holds one of the listed words. *)
Definition has_click_bait (title : str) : bool :=
  existsb (fun word => contains word title) click_bait_words.

(** Lower-casing never produces a markup character out of another one. *)
Definition lower_makes_no_markup (U : UnicodeData) : Prop :=
  forall c d, In d (to_lower_full U c) -> is_markup d = true -> is_markup c = true.

(** The text starts and ends with something other than [c]. *)
Definition no_edge (c : codepoint) (s : str) : Prop :=
  startswith [c] s = false /\ endswith [c] s = false.

(** A keyword as the input field yields it: not empty, stripped, and
    without a comma. *)
Definition clean_keyword (kw : str) : Prop :=
  kw <> [] /\ strip kw = kw /\ ~ In 44%N kw.

(** The record of a text without paragraph. *)
Definition empty_readability : Readability :=
  {| paragraph_count := 0;
     sentence_count := 0;
     long_paragraphs_count := 0;
     avg_paragraph_length := PyInt 0;
     avg_sentence_length := PyInt 0;
     is_good_readability := true |}.

(** The block [add_toc_if_needed] inserts: the marker line, an empty line,
    one entry per heading and an empty line, joined by line feeds. *)
Definition toc_lines (U : UnicodeData) (markdown_text : str) : list str :=
  [toc_marker; []] ++
  map (toc_entry U) (extract_headings (lines markdown_text)) ++ [[]].

Definition toc_block (U : UnicodeData) (markdown_text : str) : str :=
  join [nl] (toc_lines U markdown_text).

(** The guard of [add_toc_if_needed]: one of the two markers occurs. *)
Definition has_toc (markdown_text : str) : bool :=
  contains toc_marker markdown_text || contains toc_marker_tight markdown_text.

(** Lower-casing never produces a line feed out of another character. *)
Definition lower_makes_no_newline (U : UnicodeData) : Prop :=
  forall c d, In d (to_lower_full U c) -> d = nl -> c = nl.

(** The counts with one more level-2 heading. *)
Definition one_more_h2 (c : HeadingCounts) : HeadingCounts :=
  {| h1 := h1 c; h2 := h2 c + 1; h3 := h3 c;
     h4 := h4 c; h5 := h5 c; h6 := h6 c |}.

(** The paragraphs and the sentences of a text: the pieces of the
    markup-free text between blank lines, and between runs of terminators,
    each stripped, the empty ones dropped. *)
Definition paragraphs_of (text : str) : list str :=
  stripped_nonempty (split_blank 0 [] (sub_markup text)).

Definition sentences_of (text : str) : list str :=
  stripped_nonempty (split_terminators false [] (sub_markup text)).

(** The mean length of the pieces, the integer 0 when there is none. *)
Definition mean_len (parts : list str) : pynum :=
  if (len_list parts >? 0)%Z
  then PyFloat (int_truediv (sum_len parts) (len_list parts))
  else PyInt 0.

(** The number of pieces of more than 100 characters. *)
Definition long_count (parts : list str) : Z :=
  len_list (filter (fun p => (len p >? 100)%Z) parts).

(** The verdict as the specification words it, over the paragraphs and the
    sentences: mean paragraph length below 120, mean sentence length below
    50, and no paragraph or fewer than 0.3 of them long. *)
Definition good_readability_of (paragraphs sentences : list str) : bool :=
  num_lt (mean_len paragraphs) (PyInt 120) &&
  num_lt (mean_len sentences) (PyInt 50) &&
  ((len_list paragraphs =? 0)%Z ||
   num_lt (PyFloat (int_truediv (long_count paragraphs) (len_list paragraphs)))
          (PyFloat f0_3)).

(** The text before the cut holds no blank line, not even one that the
    first line feed of the cut would complete. *)
Definition before_first_blank_line (title_part : str) : Prop :=
  contains [nl; nl] (title_part ++ [nl]) = false.

(** * Properties *)

(** ** Sanity checks of the string and number models *)

Example lit_ascii : lit "## T" = [35; 35; 32; 84]%N.
Proof. reflexivity. Qed.

Example lit_kana_kanji :
  lit "お得な方法" = [12362; 24471; 12394; 26041; 27861]%N.
Proof. reflexivity. Qed.

Example lower_keyword : lower basic_latin (lit "Keyword") = lit "keyword".
Proof. reflexivity. Qed.

Example count_overlap : count (lit "aaa") (lit "aa") = 1%Z.
Proof. reflexivity. Qed.

Example strip_both : strip (lit "  a b ") = lit "a b".
Proof. reflexivity. Qed.

Example split_once_found :
  split_once [nl; nl] [] (lit "a" ++ [nl; nl] ++ lit "b" ++ [nl; nl] ++ lit "c")
  = [lit "a"; lit "b" ++ [nl; nl] ++ lit "c"].
Proof. reflexivity. Qed.

Example literal_0_3 : int_truediv 3 10 = f0_3.
Proof. vm_compute. reflexivity. Qed.

Example literal_0_5 : int_truediv 1 2 = f0_5 /\ of_int 3 = f3_0.
Proof. split; vm_compute; reflexivity. Qed.

(** [round(1/3*100, 2)] is 33.33 and [round(1/800*100, 2)] is 0.12. *)
Example round2_third :
  float_round2 (fmul (int_truediv 1 3) (of_int 100))
  = S754_finite false 4690780486883082 (-47).
Proof. vm_compute. reflexivity. Qed.

Example round2_tie :
  float_round2 (fmul (int_truediv 1 800) (of_int 100)) = int_truediv 12 100.
Proof. vm_compute. reflexivity. Qed.

(** ** Title scorer *)

Section TitleScorerFacts.
Variable U : UnicodeData.

Lemma deduct_fst (cond : bool) (points : Z) (note : string) (st : Eval) :
  fst (deduct cond points note st) = (fst st - (if cond then points else 0))%Z.
Proof. unfold deduct. destruct cond; simpl; lia. Qed.

Lemma check_length_fst (title : str) (st : Eval) :
  (fst st - 15 <= fst (check_length title st) <= fst st)%Z.
Proof.
  unfold check_length.
  destruct (len title >? 35)%Z; [rewrite deduct_fst; lia|].
  destruct (len title <? 10)%Z; [rewrite deduct_fst; lia|lia].
Qed.

(** The four deductions remove at most 30 + 15 + 5 + 5 points. *)
Lemma raw_score_range (title main_keyword : str) :
  (45 <= fst (raw_score U title main_keyword) <= 100)%Z.
Proof.
  unfold raw_score, check_click_bait, check_digit, check_keyword.
  rewrite !deduct_fst.
  match goal with
  | |- context [check_length ?t ?st] =>
      pose proof (check_length_fst t st) as Hlen; rewrite deduct_fst in Hlen
  end.
  simpl fst in *.
  repeat match goal with
         | |- context [if ?b then _ else _] => destruct b
         | H : context [if ?b then _ else _] |- _ => destruct b
         end; lia.
Qed.

Lemma score_unfold (title main_keyword : str) :
  score (evaluate_seo_title U title main_keyword)
  = Z.max 0 (Z.min 100 (fst (raw_score U title main_keyword))).
Proof.
  unfold evaluate_seo_title.
  destruct (raw_score U title main_keyword) as [s c]. reflexivity.
Qed.

(** A string of characters that the database maps to themselves is its own
    lower-case form. *)
Lemma lower_from_fixed (s before : str) :
  Forall (fun c => c <> 931%N /\ to_lower_full U c = [c]) s ->
  lower_from U before s = s.
Proof.
  revert before. induction s as [|c s IH]; intros before H; [reflexivity|].
  inversion H as [|? ? [Hc Hl] Hs]; subst. simpl.
  destruct (N.eqb_spec c 931) as [E|_]; [contradiction|].
  rewrite Hl, IH by assumption. reflexivity.
Qed.

End TitleScorerFacts.

(** C9. For every title and every keyword the returned score lies between
    0 and 100: the last assignment is [max(0, min(100, score))]. *)
Theorem score_clamped (U : UnicodeData) (title main_keyword : str) :
  (0 <= score (evaluate_seo_title U title main_keyword) <= 100)%Z.
Proof. rewrite score_unfold. lia. Qed.

(** C10. For every title and every keyword the returned score is at least
    45, and the clamp changes nothing: the score is 100 minus the deductions,
    which are at most 30, 15 (or 10), 5 and 5. *)
Theorem score_at_least_45 (U : UnicodeData) (title main_keyword : str) :
  (45 <= score (evaluate_seo_title U title main_keyword))%Z /\
  score (evaluate_seo_title U title main_keyword)
  = fst (raw_score U title main_keyword).
Proof.
  rewrite score_unfold.
  pose proof (raw_score_range U title main_keyword). lia.
Qed.

(** C8. [evaluate_seo_title("お得な方法", "方法")] scores 85: the keyword
    occurs in the title, the title has 5 characters (10 points off), no
    digit (5 points off), and the word "方法" of the fixed list occurs.
    The database is only asked about the five characters of the title. *)
Theorem score_otoku_na_houhou (U : UnicodeData) :
  Forall (uncased_nondigit U) (lit "お得な方法") ->
  score (evaluate_seo_title U (lit "お得な方法") (lit "方法")) = 85%Z.
Proof.
  intros H.
  assert (Hlow : forall s, incl s (lit "お得な方法") -> lower U s = s).
  { intros s Hs. apply lower_from_fixed.
    apply Forall_forall. intros c Hc.
    rewrite Forall_forall in H. destruct (H c (Hs c Hc)) as [Hl _].
    split; [|exact Hl].
    apply Hs in Hc. vm_compute in Hc. intros ->.
    repeat (destruct Hc as [Hc|Hc]; [discriminate|]). exact Hc. }
  assert (Hdig : any_digit U (lit "お得な方法") = false).
  { unfold any_digit. apply not_true_is_false. intros E.
    apply existsb_exists in E. destruct E as [c [Hc E]].
    rewrite Forall_forall in H. destruct (H c Hc) as [_ Hd]. congruence. }
  rewrite score_unfold.
  unfold raw_score, check_click_bait, check_digit, check_keyword.
  rewrite !deduct_fst, Hdig.
  rewrite (Hlow (lit "お得な方法")) by apply incl_refl.
  rewrite (Hlow (lit "方法")).
  2:{ intros c Hc. vm_compute in Hc. vm_compute.
      repeat (destruct Hc as [Hc|Hc]; [subst; tauto|]). contradiction. }
  vm_compute. reflexivity.
Qed.

Lemma score_otoku_na_houhou_witness :
  score (evaluate_seo_title basic_latin (lit "お得な方法") (lit "方法")) = 85%Z.
Proof.
  apply score_otoku_na_houhou.
  repeat constructor.
Defined.

(** ** Heading structure *)

Lemma split_char_cur (c : codepoint) (s cur : str) :
  split_char c cur s =
  match split_char c [] s with
  | l :: ls => (rev cur ++ l) :: ls
  | [] => []
  end.
Proof.
  revert cur. induction s as [|x s IH]; intros cur; simpl.
  - now rewrite app_nil_r.
  - destruct (x =? c)%N.
    + now rewrite app_nil_r.
    + rewrite IH. rewrite (IH [x]).
      destruct (split_char c [] s); [reflexivity|].
      simpl. now rewrite <- app_assoc.
Qed.

Lemma lines_cons (x : codepoint) (s : str) :
  lines (x :: s) =
  if (x =? nl)%N then [] :: lines s
  else match lines s with
       | l :: ls => (x :: l) :: ls
       | [] => []
       end.
Proof.
  unfold lines. simpl. destruct (x =? nl)%N; [reflexivity|].
  now rewrite split_char_cur.
Qed.

Lemma lines_not_nil (s : str) : lines s <> [].
Proof.
  destruct s as [|x s]; [discriminate|].
  rewrite lines_cons. destruct (x =? nl)%N; [discriminate|].
  unfold lines. destruct s as [|y s]; simpl; [discriminate|].
  destruct (y =? nl)%N; [discriminate|].
  rewrite split_char_cur. destruct (split_char nl [] s) eqn:E; [|discriminate].
  exfalso. clear -E. revert E. generalize (@nil codepoint).
  induction s as [|z s IH]; intros cur; simpl; [discriminate|].
  destruct (z =? nl)%N; [discriminate|apply IH].
Qed.

Section LineAnchoredCount.
Variable pat : str.
Hypothesis pat_not_nil : pat <> [].
Hypothesis pat_one_line : ~ In nl pat.

Lemma startswith_firstn (p s : str) :
  startswith p s = true -> firstn (length p) s = p.
Proof.
  revert s. induction p as [|a p IH]; intros [|b s] H; simpl in *;
    try reflexivity; try discriminate.
  apply andb_prop in H. destruct H as [E H].
  apply N.eqb_eq in E. subst. now rewrite IH.
Qed.

(** A pattern without a line feed is matched inside the first line. *)
Lemma startswith_first_line (p s : str) :
  ~ In nl p -> startswith p s = startswith p (hd [] (lines s)).
Proof.
  revert s. induction p as [|a p IH]; intros s Hp; [reflexivity|].
  destruct s as [|x s]; [reflexivity|].
  rewrite lines_cons. simpl startswith at 1.
  destruct (N.eqb_spec x nl) as [->|Hx].
  - simpl. destruct (N.eqb_spec a nl) as [->|_]; [|reflexivity].
    exfalso. apply Hp. now left.
  - pose proof (lines_not_nil s) as Hn.
    destruct (lines s) as [|l ls] eqn:E; [contradiction|].
    simpl. rewrite (IH s), E; [reflexivity|].
    intros Hin. apply Hp. now right.
Qed.

(** The scan counts the lines that begin with the pattern: from the start
    of a line, and from inside a line with some characters of a match still
    to be passed. *)
Lemma count_bol_spec (s : str) :
  count_bol pat true 0 s = length (filter (startswith pat) (lines s)) /\
  forall k, ~ In nl (firstn k s) ->
            count_bol pat false k s
            = length (filter (startswith pat) (tl (lines s))).
Proof.
  induction s as [|c s [IHb IHa]].
  - split.
    + simpl. destruct pat; [contradiction|reflexivity].
    + intros k _. reflexivity.
  - assert (Hmid : forall k, ~ In nl (firstn k (c :: s)) ->
              count_bol pat false k (c :: s)
              = length (filter (startswith pat) (tl (lines (c :: s))))).
    { intros k Hk. rewrite lines_cons.
      pose proof (lines_not_nil s) as Hn.
      destruct k as [|k]; simpl count_bol.
      - destruct (N.eqb_spec c nl) as [->|Hc]; [exact IHb|].
        rewrite (IHa 0%nat) by (simpl; tauto).
        destruct (lines s); [contradiction|reflexivity].
      - destruct (N.eqb_spec c nl) as [->|Hc].
        + exfalso. apply Hk. now left.
        + rewrite (IHa k).
          * destruct (lines s); [contradiction|reflexivity].
          * intros Hin. apply Hk. now right. }
    split; [|exact Hmid].
    pose proof (startswith_first_line pat (c :: s) pat_one_line) as Hf.
    rewrite lines_cons in Hf |- *.
    pose proof (lines_not_nil s) as Hn.
    cbn [count_bol andb].
    destruct (startswith pat (c :: s)) eqn:Hst.
    + (* a match at the start of this line *)
      assert (Hskip : ~ In nl (firstn (length pat - 1) s) /\ (c =? nl)%N = false).
      { pose proof (startswith_firstn _ _ Hst) as Hfn.
        destruct pat as [|a p]; [contradiction|].
        simpl in Hst. apply andb_prop in Hst. destruct Hst as [Ea _].
        apply N.eqb_eq in Ea. subst c.
        simpl in Hfn. injection Hfn as Hfn.
        replace (length (a :: p) - 1) with (length p) by (simpl; lia).
        rewrite Hfn. split.
        - intros Hin. apply pat_one_line. now right.
        - apply N.eqb_neq. intros ->. apply pat_one_line. now left. }
      destruct Hskip as [Hskip Hc]. rewrite Hc in *.
      rewrite (IHa _ Hskip).
      destruct (lines s) as [|l ls]; [contradiction|].
      cbn [hd] in Hf. cbn [filter tl]. rewrite <- Hf. reflexivity.
    + (* no match here *)
      destruct (c =? nl)%N.
      * rewrite IHb. cbn [hd] in Hf. cbn [filter]. now rewrite <- Hf.
      * rewrite (IHa 0%nat) by (simpl; tauto).
        destruct (lines s) as [|l ls]; [contradiction|].
        cbn [hd] in Hf. cbn [filter tl]. now rewrite <- Hf.
Qed.

End LineAnchoredCount.

Lemma heading_prefix_level (k : nat) (l : str) :
  startswith (heading_prefix k) l = is_level_line k l.
Proof.
  unfold heading_prefix, is_level_line.
  revert l. induction k as [|k IH]; intros l.
  - destruct l as [|c l]; [reflexivity|]. simpl.
    destruct (N.eqb_spec c hash) as [->|_]; [reflexivity|].
    now rewrite andb_true_r.
  - destruct l as [|c l]; [reflexivity|].
    cbn [repeat app startswith leading_hashes skipn].
    rewrite IH, (N.eqb_sym hash c).
    destruct (c =? hash)%N; reflexivity.
Qed.

Lemma heading_prefix_one_line (k : nat) :
  heading_prefix k <> [] /\ ~ In nl (heading_prefix k).
Proof.
  unfold heading_prefix. split.
  - destruct k; discriminate.
  - intros H. apply in_app_or in H. destruct H as [H|[H|[]]].
    + apply repeat_spec in H. discriminate.
    + discriminate.
Qed.

Lemma findall_heading (k : nat) (text : str) :
  findall_bol_count (heading_prefix k) text
  = Z.of_nat (length (level_lines k text)).
Proof.
  unfold findall_bol_count, level_lines.
  destruct (heading_prefix_one_line k) as [Hn Hl].
  rewrite (proj1 (count_bol_spec Hn Hl text)).
  do 2 f_equal. apply filter_ext. intros l. apply heading_prefix_level.
Qed.

(** C3. Heading counts are exact-level: the count reported for each level
    [k] from 1 to 6 is the number of lines that begin with exactly [k]
    number signs followed by a space, so a line counts toward one level at
    most; the one-line document [#### Title] gives h4 = 1 and 0 elsewhere. *)
Theorem heading_counts_exact_level (text : str) :
  Forall (fun k => level_count k (counts (analyze_headings text))
                   = Z.of_nat (length (level_lines k text)))
         [1; 2; 3; 4; 5; 6]%nat /\
  (forall j k l, is_level_line j l = true -> is_level_line k l = true -> j = k) /\
  counts (analyze_headings (lit "#### Title"))
  = {| h1 := 0; h2 := 0; h3 := 0; h4 := 1; h5 := 0; h6 := 0 |}.
Proof.
  split; [|split].
  - unfold analyze_headings. cbn [counts].
    repeat constructor; cbn [level_count h1 h2 h3 h4 h5 h6];
      apply findall_heading.
  - unfold is_level_line. intros j k l Hj Hk.
    apply andb_prop in Hj. apply andb_prop in Hk.
    destruct Hj as [Hj _]. destruct Hk as [Hk _].
    apply Nat.eqb_eq in Hj. apply Nat.eqb_eq in Hk. congruence.
  - vm_compute. reflexivity.
Qed.

(** C4. The structure is good exactly when there is one level-1 heading
    and at least one level-2 heading; the three documents of the
    specification give true, false (no h1) and false (two h1). *)
Theorem good_structure_iff (text : str) :
  (is_good_structure (analyze_headings text) = true <->
   (h1 (counts (analyze_headings text)) >= 1 /\
    h2 (counts (analyze_headings text)) >= 1 /\
    h1 (counts (analyze_headings text)) <= 1)%Z) /\
  is_good_structure
    (analyze_headings (lit "# T" ++ [nl] ++ lit "## A" ++ [nl] ++ lit "## B"))
  = true /\
  is_good_structure (analyze_headings (lit "## A")) = false /\
  is_good_structure
    (analyze_headings (lit "# T" ++ [nl] ++ lit "# U" ++ [nl] ++ lit "## A"))
  = false.
Proof.
  split; [|repeat split; vm_compute; reflexivity].
  unfold analyze_headings. cbn [is_good_structure counts h1 h2].
  rewrite !andb_true_iff, negb_true_iff.
  rewrite !Z.gtb_lt, Z.gtb_ltb, Z.ltb_ge. lia.
Qed.

(** ** Keyword density *)

(** C1, as the code has it. With the empty keyword the count is not 0: it
    is the length of the lower-cased, markup-free text plus one, the number
    of positions at which [str.count] finds the empty string. *)
Theorem empty_keyword_count (U : UnicodeData) (text : str) :
  keyword_count (analyze_keyword_density U text [])
  = (len (lower U (sub_markup text)) + 1)%Z.
Proof. reflexivity. Qed.

(** C1 fails as stated: the text [abc] gives 4 and the empty text gives 1. *)
Lemma empty_keyword_count_nonzero :
  keyword_count (analyze_keyword_density basic_latin (lit "abc") []) = 4%Z /\
  keyword_count (analyze_keyword_density basic_latin [] []) = 1%Z.
Proof. split; reflexivity. Qed.

(** C6. The reported density is [keyword_count / total_words * 100],
    computed in binary64 and rounded to two decimals, when there is at
    least one word, and the integer 0 when there is none. *)
Theorem density_formula (U : UnicodeData) (text keyword : str) :
  density (analyze_keyword_density U text keyword)
  = density_spec (keyword_count (analyze_keyword_density U text keyword))
                 (total_words (analyze_keyword_density U text keyword)).
Proof.
  unfold analyze_keyword_density, density_spec, percentage.
  cbn [density total_words keyword_count].
  destruct (len_list (findall_words U [] (sub_markup text)) >? 0)%Z;
    reflexivity.
Qed.

(** The arithmetic is binary64: with 23 occurrences in 160 words the
    product is just below 14.375 and the density is 14.37. *)
Example density_23_of_160 :
  let r := analyze_keyword_density basic_latin text_23_of_160 (lit "k") in
  keyword_count r = 23%Z /\ total_words r = 160%Z /\
  density r = PyFloat (int_truediv 1437 100).
Proof. vm_compute. repeat split; reflexivity. Qed.

Lemma lower_from_basic_latin (U : UnicodeData) (s before : str) :
  basic_latin_lower U -> is_basic_latin s ->
  lower_from U before s = map ascii_lower s.
Proof.
  intros HU. revert before.
  induction s as [|c s IH]; intros before Hs; [reflexivity|].
  inversion Hs as [|? ? Hc Hs']; subst. simpl.
  destruct (N.eqb_spec c 931) as [->|_]; [lia|].
  rewrite (HU c Hc), IH by assumption. reflexivity.
Qed.

(** C7, as the code has it. The analysis reads the keyword only through
    [keyword.lower()]: keywords with the same lower-case form give the same
    result record.  In particular Basic Latin keywords that differ in
    letter case only do, such as [Keyword] and [keyword]. *)
Theorem keyword_case_insensitive (U : UnicodeData) (text : str) :
  (forall k1 k2, lower U k1 = lower U k2 ->
     analyze_keyword_density U text k1 = analyze_keyword_density U text k2) /\
  (basic_latin_lower U ->
     (forall k1 k2, is_basic_latin k1 -> is_basic_latin k2 ->
        map ascii_lower k1 = map ascii_lower k2 ->
        analyze_keyword_density U text k1 = analyze_keyword_density U text k2) /\
     analyze_keyword_density U text (lit "Keyword")
     = analyze_keyword_density U text (lit "keyword")).
Proof.
  assert (Hlow : forall k1 k2, lower U k1 = lower U k2 ->
     analyze_keyword_density U text k1 = analyze_keyword_density U text k2).
  { intros k1 k2 H. unfold analyze_keyword_density. now rewrite H. }
  split; [exact Hlow|]. intros HU.
  assert (Hascii : forall k1 k2, is_basic_latin k1 -> is_basic_latin k2 ->
        map ascii_lower k1 = map ascii_lower k2 ->
        analyze_keyword_density U text k1 = analyze_keyword_density U text k2).
  { intros k1 k2 H1 H2 E. apply Hlow. unfold lower.
    rewrite !lower_from_basic_latin by assumption. exact E. }
  split; [exact Hascii|].
  apply Hascii; [| |reflexivity];
    unfold is_basic_latin; vm_compute; repeat constructor.
Qed.

Lemma keyword_case_insensitive_witness :
  analyze_keyword_density basic_latin (lit "The Keyword, a keyword.") (lit "Keyword")
  = analyze_keyword_density basic_latin (lit "The Keyword, a keyword.") (lit "keyword").
Proof.
  apply (proj2 (keyword_case_insensitive basic_latin (lit "The Keyword, a keyword."))).
  intros c _. reflexivity.
Defined.

(** C7 fails for letter case at large: the capital sigma and the final
    sigma are one letter in two cases, yet in the text [AΣ], which
    lower-cases to [aς], the keyword [Σ] (lower-cased to [σ]) is not found
    and the keyword [ς] is found once. *)
Lemma keyword_case_sigma :
  keyword_count (analyze_keyword_density basic_latin (lit "AΣ") (lit "Σ")) = 0%Z /\
  keyword_count (analyze_keyword_density basic_latin (lit "AΣ") (lit "ς")) = 1%Z.
Proof. split; reflexivity. Qed.

(** ** Table of contents *)

Lemma startswith_app (p s : str) : startswith p (p ++ s) = true.
Proof.
  induction p as [|a p IH]; [reflexivity|].
  simpl. now rewrite N.eqb_refl.
Qed.

Lemma contains_unfold (p s : str) :
  contains p s =
  startswith p s || match s with [] => false | _ :: s' => contains p s' end.
Proof. destruct s; reflexivity. Qed.

Lemma contains_app (p a b : str) : contains p (a ++ p ++ b) = true.
Proof.
  induction a as [|x a IH].
  - simpl app. rewrite contains_unfold, startswith_app. reflexivity.
  - simpl. rewrite IH. apply orb_true_r.
Qed.

Lemma contains_mid (p a sep b c : str) :
  contains p (a ++ sep ++ (p ++ b) ++ c) = true.
Proof.
  replace (a ++ sep ++ (p ++ b) ++ c) with ((a ++ sep) ++ p ++ (b ++ c))
    by (now rewrite <- !app_assoc).
  apply contains_app.
Qed.

Lemma join_cons2 (sep p q : str) (rest : list str) :
  join sep (p :: q :: rest) = p ++ sep ++ join sep (q :: rest).
Proof. reflexivity. Qed.

Section TocFacts.
Variable U : UnicodeData.

(** A text that carries the marker is returned as it is. *)
Lemma add_toc_marked (s : str) :
  contains toc_marker s = true -> add_toc_if_needed U s = s.
Proof. intros H. unfold add_toc_if_needed. now rewrite H. Qed.

(** The text is returned unchanged, or the result carries the marker. *)
Lemma add_toc_cases (s : str) :
  add_toc_if_needed U s = s \/
  contains toc_marker (add_toc_if_needed U s) = true.
Proof.
  unfold add_toc_if_needed.
  destruct (contains toc_marker s || contains toc_marker_tight s);
    [now left|].
  destruct (extract_headings (lines s)) as [|h hs]; [now left|].
  right. cbn [app]. rewrite join_cons2.
  assert (Hend : forall b,
             contains toc_marker (s ++ [nl; nl] ++ toc_marker ++ b) = true).
  { intros b. rewrite <- (app_nil_r (toc_marker ++ b)). apply contains_mid. }
  destruct (split_once [nl; nl] [] s) as [|title_part [|body_part [|? ?]]];
    try apply Hend.
  exact (contains_mid toc_marker title_part [nl; nl] _ ([nl; nl] ++ body_part)).
Qed.

End TocFacts.

(** C5. Adding the table of contents is idempotent: the first call either
    returns its input, or returns a text that contains the marker line
    [## 目次], which the second call leaves alone. *)
Theorem add_toc_idempotent (U : UnicodeData) (markdown_text : str) :
  add_toc_if_needed U (add_toc_if_needed U markdown_text)
  = add_toc_if_needed U markdown_text.
Proof.
  destruct (add_toc_cases U markdown_text) as [H|H].
  - rewrite H. exact H.
  - now apply add_toc_marked.
Qed.

(** ** Readability *)

Lemma lstrip_nil (s : str) : lstrip s = [] <-> all_space s.
Proof.
  unfold all_space. induction s as [|c s IH]; simpl.
  - split; [constructor|reflexivity].
  - destruct (is_space c) eqn:E.
    + rewrite IH. split; [now constructor|]. intros H. now inversion H.
    + split; [discriminate|]. intros H. inversion H. congruence.
Qed.

Lemma lstrip_head (s r : str) (c : codepoint) :
  lstrip s = c :: r -> is_space c = false.
Proof.
  induction s as [|x s IH]; simpl; [discriminate|].
  destruct (is_space x) eqn:E; [exact IH|].
  intros H. injection H as -> _. exact E.
Qed.

Lemma strip_nil (s : str) : strip s = [] <-> all_space s.
Proof.
  unfold strip. split.
  - intros H. apply lstrip_nil.
    apply (f_equal (@rev codepoint)) in H. rewrite rev_involutive in H.
    simpl in H. apply lstrip_nil in H. unfold all_space in H.
    apply Forall_rev in H. rewrite rev_involutive in H.
    destruct (lstrip s) as [|c r] eqn:E; [reflexivity|].
    apply lstrip_head in E. inversion H. congruence.
  - intros H. apply lstrip_nil in H. now rewrite H.
Qed.

(** No stripped piece is kept exactly when every piece is blank. *)
Lemma stripped_nonempty_nil (parts : list str) :
  stripped_nonempty parts = [] <-> Forall all_space parts.
Proof.
  unfold stripped_nonempty. induction parts as [|p parts IH]; simpl.
  - split; [constructor|reflexivity].
  - destruct (strip p) as [|c r] eqn:E; simpl.
    + apply strip_nil in E. rewrite IH.
      split; [now constructor|]. intros H. now inversion H.
    + split; [discriminate|]. intros H. inversion H as [|? ? Hp _]; subst.
      apply strip_nil in Hp. congruence.
Qed.

Lemma blank_tail_spaces (s : str) (n : nat) :
  blank_tail s = Some n -> all_space (firstn n s).
Proof.
  unfold all_space. revert n. induction s as [|c s IH]; intros n; simpl;
    [discriminate|].
  destruct (is_space c) eqn:E; [|discriminate].
  destruct (blank_tail s) as [m|].
  - intros H. injection H as <-. simpl. constructor; [exact E|now apply IH].
  - destruct (c =? nl)%N; [|discriminate].
    intros H. injection H as <-. simpl. repeat constructor. exact E.
Qed.

(** The separators of [split_blank] are whitespace, so a text whose pieces
    are all blank is blank itself. *)
Lemma split_blank_all_space (s cur : str) (k : nat) :
  all_space (firstn k s) ->
  Forall all_space (split_blank k cur s) ->
  all_space cur /\ all_space s.
Proof.
  unfold all_space. revert cur k.
  induction s as [|c s IH]; intros cur k Hk H.
  - simpl in H. inversion H as [|? ? Hc _]; subst.
    apply Forall_rev in Hc. rewrite rev_involutive in Hc.
    split; [exact Hc|constructor].
  - destruct k as [|k]; cbn [split_blank] in H.
    + destruct (if (c =? nl)%N then blank_tail s else None) as [n|] eqn:E.
      * destruct (N.eqb_spec c nl) as [->|_]; [|discriminate].
        inversion H as [|? ? Hc Hrest]; subst.
        apply Forall_rev in Hc. rewrite rev_involutive in Hc.
        apply IH in Hrest; [|now apply blank_tail_spaces].
        split; [exact Hc|]. constructor; [reflexivity|apply Hrest].
      * apply IH in H; [|constructor]. destruct H as [Hc Hs].
        inversion Hc; subst. split; [assumption|now constructor].
    + simpl in Hk. inversion Hk; subst.
      apply IH in H; [|assumption]. destruct H as [Hc Hs].
      split; [assumption|now constructor].
Qed.

Lemma space_not_terminator (c : codepoint) :
  is_space c = true -> is_terminator c = false.
Proof.
  unfold is_terminator. intros H.
  repeat match goal with
         | |- context [(c =? ?v)%N] =>
             destruct (N.eqb_spec c v) as [->|_]; [discriminate H|]
         end.
  reflexivity.
Qed.

Lemma split_terminators_none (s cur : str) (in_sep : bool) :
  all_space s -> split_terminators in_sep cur s = [rev cur ++ s].
Proof.
  unfold all_space. revert cur in_sep.
  induction s as [|c s IH]; intros cur in_sep H; simpl.
  - now rewrite app_nil_r.
  - inversion H as [|? ? Hc Hs]; subst.
    rewrite (space_not_terminator c Hc), IH by assumption.
    simpl. now rewrite <- app_assoc.
Qed.

(** A text without a paragraph has no sentence either. *)
Lemma no_paragraph_no_sentence (clean_text : str) :
  stripped_nonempty (split_blank 0 [] clean_text) = [] ->
  stripped_nonempty (split_terminators false [] clean_text) = [].
Proof.
  intros H. apply stripped_nonempty_nil in H.
  apply split_blank_all_space in H; [|constructor]. destruct H as [_ H].
  rewrite split_terminators_none by assumption.
  apply stripped_nonempty_nil. repeat constructor. exact H.
Qed.

(** Over the fields of the result the verdict is the conjunction of the
    specification.  Without a paragraph the code answers [True] outright;
    the conjunction is true there as well, since both averages are then the
    integer 0. *)
Lemma readability_verdict_fields (text : str) :
  is_good_readability (analyze_readability text)
  = good_readability_spec (analyze_readability text).
Proof.
  unfold good_readability_spec, analyze_readability.
  cbn [is_good_readability avg_paragraph_length avg_sentence_length
       paragraph_count long_paragraphs_count].
  pose proof (no_paragraph_no_sentence (sub_markup text)) as Hnone.
  set (paragraphs := stripped_nonempty (split_blank 0 [] (sub_markup text))) in *.
  set (sentences :=
         stripped_nonempty (split_terminators false [] (sub_markup text))) in *.
  destruct (len_list paragraphs >? 0)%Z eqn:E.
  - apply Z.gtb_lt in E.
    destruct (Z.eqb_spec (len_list paragraphs) 0) as [E0|_]; [lia|].
    reflexivity.
  - destruct paragraphs as [|p ps].
    + rewrite Hnone by reflexivity. reflexivity.
    + unfold len_list in E. simpl length in E.
      rewrite Z.gtb_ltb in E. apply Z.ltb_ge in E. lia.
Qed.

(** C2. For every text the verdict is the conjunction the specification
    gives, taken over the paragraphs and the sentences of the markup-free
    text: mean paragraph length below 120, mean sentence length below 50,
    and no paragraph or fewer than 0.3 of them long.  The counts and the
    averages of the result are those of the same paragraphs and
    sentences. *)
Theorem readability_verdict (text : str) :
  is_good_readability (analyze_readability text)
  = good_readability_of (paragraphs_of text) (sentences_of text) /\
  paragraph_count (analyze_readability text) = len_list (paragraphs_of text) /\
  sentence_count (analyze_readability text) = len_list (sentences_of text) /\
  long_paragraphs_count (analyze_readability text)
  = long_count (paragraphs_of text) /\
  avg_paragraph_length (analyze_readability text)
  = mean_len (paragraphs_of text) /\
  avg_sentence_length (analyze_readability text)
  = mean_len (sentences_of text).
Proof.
  split; [|repeat split; reflexivity].
  rewrite readability_verdict_fields. reflexivity.
Qed.

(** * Further properties *)

(** ** Trimming *)

Section TrimFacts.
Variable p : codepoint -> bool.

Lemma drop_while_split (s : str) :
  exists pre, s = pre ++ drop_while p s /\ Forall (fun c => p c = true) pre.
Proof.
  induction s as [|c s [pre [E H]]]; simpl.
  - exists []. split; [reflexivity|constructor].
  - destruct (p c) eqn:Hc.
    + exists (c :: pre). split; [simpl; now f_equal|now constructor].
    + exists []. split; [reflexivity|constructor].
Qed.

Lemma drop_while_head (s r : str) (c : codepoint) :
  drop_while p s = c :: r -> p c = false.
Proof.
  induction s as [|x s IH]; simpl; [discriminate|].
  destruct (p x) eqn:E; [exact IH|].
  intros H. injection H as -> _. exact E.
Qed.

Lemma drop_while_fixed (c : codepoint) (s : str) :
  p c = false -> drop_while p (c :: s) = c :: s.
Proof. intros H. simpl. now rewrite H. Qed.

Lemma drop_while_idem (s : str) :
  drop_while p (drop_while p s) = drop_while p s.
Proof.
  destruct (drop_while p s) as [|c r] eqn:E; [reflexivity|].
  apply drop_while_fixed. exact (drop_while_head _ E).
Qed.

Lemma drop_while_In (s : str) (x : codepoint) :
  In x (drop_while p s) -> In x s.
Proof.
  destruct (drop_while_split s) as [pre [E _]]. intros H.
  rewrite E. apply in_or_app. now right.
Qed.

(** The first and the last character of a trimmed text fail [p]. *)
Lemma trim_head (s r : str) (c : codepoint) :
  trim p s = c :: r -> p c = false.
Proof.
  unfold trim. intros H.
  destruct (drop_while_split (rev (drop_while p s))) as [pre [E Hpre]].
  set (w := drop_while p (rev (drop_while p s))) in *.
  apply (f_equal (@rev codepoint)) in E.
  rewrite rev_involutive, rev_app_distr, H in E.
  simpl in E. exact (drop_while_head _ E).
Qed.

Lemma trim_last (s r : str) (c : codepoint) :
  trim p s = r ++ [c] -> p c = false.
Proof.
  unfold trim. intros H.
  apply (f_equal (@rev codepoint)) in H.
  rewrite rev_involutive, rev_app_distr in H. simpl in H.
  exact (drop_while_head _ H).
Qed.

(** A text whose two ends fail [p] is its own trimming. *)
Lemma trim_fixed (s : str) :
  drop_while p s = s -> drop_while p (rev s) = rev s -> trim p s = s.
Proof.
  intros H1 H2. unfold trim. rewrite H1, H2. apply rev_involutive.
Qed.

Lemma trim_idem (s : str) : trim p (trim p s) = trim p s.
Proof.
  apply trim_fixed.
  - destruct (trim p s) as [|c r] eqn:E; [reflexivity|].
    apply drop_while_fixed. exact (trim_head _ E).
  - unfold trim. rewrite rev_involutive. apply drop_while_idem.
Qed.

Lemma trim_In (s : str) (x : codepoint) : In x (trim p s) -> In x s.
Proof.
  unfold trim. intros H. apply in_rev in H.
  apply drop_while_In in H. apply in_rev in H.
  now apply drop_while_In in H.
Qed.

(** Trimming keeps a first character that fails [p]. *)
Lemma trim_keeps_head (c : codepoint) (s : str) :
  p c = false -> exists r, trim p (c :: s) = c :: r.
Proof.
  intros Hc. unfold trim. rewrite (drop_while_fixed s Hc).
  destruct (drop_while_split (rev (c :: s))) as [pre [E Hpre]].
  set (w := drop_while p (rev (c :: s))) in *.
  apply (f_equal (@rev codepoint)) in E.
  rewrite rev_involutive, rev_app_distr in E.
  destruct (rev w) as [|x r] eqn:Ew.
  - exfalso. simpl in E. apply Forall_rev in Hpre. rewrite <- E in Hpre.
    inversion Hpre. congruence.
  - simpl in E. injection E as -> _. now exists r.
Qed.

End TrimFacts.

Lemma lstrip_drop_while (s : str) : lstrip s = drop_while is_space s.
Proof. induction s as [|c s IH]; simpl; [|rewrite IH]; reflexivity. Qed.

Lemma strip_trim (s : str) : strip s = trim is_space s.
Proof. unfold strip, trim. now rewrite !lstrip_drop_while. Qed.

Lemma strip_idem (s : str) : strip (strip s) = strip s.
Proof. rewrite !strip_trim. apply trim_idem. Qed.

Lemma startswith_prefix (q s : str) :
  startswith q s = true -> exists r, s = q ++ r.
Proof.
  revert s. induction q as [|a q IH]; intros s H.
  - now exists s.
  - destruct s as [|b s]; [discriminate|]. simpl in H.
    apply andb_prop in H. destruct H as [E H]. apply N.eqb_eq in E. subst.
    destruct (IH s H) as [r ->]. now exists r.
Qed.

Lemma endswith_suffix (q s : str) :
  endswith q s = true -> exists r, s = r ++ q.
Proof.
  unfold endswith. intros H. apply startswith_prefix in H.
  destruct H as [r E]. exists (rev r).
  apply (f_equal (@rev codepoint)) in E.
  now rewrite rev_involutive, rev_app_distr, rev_involutive in E.
Qed.

(** ** The text of a generated article *)

Lemma fence_chars : fence = [96; 96; 96]%N.
Proof. reflexivity. Qed.

Lemma fence_markdown_chars :
  fence_markdown = [96; 96; 96; 109; 97; 114; 107; 100; 111; 119; 110]%N.
Proof. reflexivity. Qed.

(** X1. When the answer is wrapped in a [```markdown] fence, the slice
    [article[10:-3]] starts one character early: the returned article
    begins with the letter n of the word markdown. *)
Theorem markdown_fence_leaves_n (text : str) :
  startswith fence_markdown (strip text) = true ->
  endswith fence (strip text) = true ->
  exists rest, generate_article (Some text) = 110%N :: rest.
Proof.
  intros Hs He. unfold generate_article. rewrite Hs, He. cbn [andb].
  destruct (startswith_prefix _ _ Hs) as [r E]. rewrite E in *.
  rewrite fence_markdown_chars, fence_chars in *.
  assert (Hr : (3 <= length r)%nat).
  { unfold endswith in He.
    destruct r as [|x [|y [|z r]]]; cbn in He; try discriminate.
    all: try (simpl; lia). }
  unfold slice. rewrite length_app. cbn [length app skipn].
  replace (11 + length r - 3 - 10)%nat with (S (length r - 3)) by lia.
  cbn [firstn]. rewrite strip_trim.
  apply trim_keeps_head. reflexivity.
Qed.

Lemma markdown_fence_leaves_n_witness :
  exists rest,
    generate_article
      (Some (lit "```markdown" ++ [nl] ++ lit "# T" ++ [nl] ++ lit "```"))
    = 110%N :: rest.
Proof.
  apply markdown_fence_leaves_n; reflexivity.
Defined.

(** X2. The returned article has no whitespace at either end, whatever the
    answer was: stripping it again changes nothing. *)
Theorem generate_article_stripped (response : option str) :
  strip (generate_article response) = generate_article response.
Proof.
  unfold generate_article. destruct response as [text|]; [|reflexivity].
  destruct (startswith fence_markdown (strip text) && endswith fence (strip text));
    [apply strip_idem|].
  destruct (startswith fence (strip text) && endswith fence (strip text));
    apply strip_idem.
Qed.

(** X3. A body wrapped in a plain fence comes back without the fence and
    stripped, as long as the fence is not followed by the word markdown. *)
Theorem plain_fence_removed (body : str) :
  startswith fence_markdown (fence ++ body ++ fence) = false ->
  generate_article (Some (fence ++ body ++ fence)) = strip body.
Proof.
  intros Hm. unfold generate_article.
  assert (Hstrip : strip (fence ++ body ++ fence) = fence ++ body ++ fence).
  { rewrite strip_trim. apply trim_fixed.
    - reflexivity.
    - rewrite !rev_app_distr. reflexivity. }
  rewrite Hstrip, Hm. cbn [andb].
  assert (Hs : startswith fence (fence ++ body ++ fence) = true)
    by apply startswith_app.
  assert (He : endswith fence (fence ++ body ++ fence) = true).
  { unfold endswith. rewrite !rev_app_distr, <- app_assoc.
    apply startswith_app. }
  rewrite Hs, He. cbn [andb]. f_equal.
  unfold slice. rewrite !length_app, fence_chars. cbn [length app skipn].
  replace (3 + (length body + 3) - 3 - 3)%nat with (length body) by lia.
  rewrite firstn_app, Nat.sub_diag, firstn_all. simpl. apply app_nil_r.
Qed.

Lemma plain_fence_removed_witness :
  generate_article (Some (fence ++ ([nl] ++ lit "# T" ++ [nl]) ++ fence))
  = strip ([nl] ++ lit "# T" ++ [nl]).
Proof.
  apply plain_fence_removed. reflexivity.
Defined.

(** ** More on the title score *)

(** The score is 100 minus the four deductions. *)
Lemma score_deductions (U : UnicodeData) (title main_keyword : str) :
  score (evaluate_seo_title U title main_keyword)
  = (100 - (if has_keyword U title main_keyword then 0 else 30)
         - length_penalty title
         - (if any_digit U title then 0 else 5)
         - (if has_click_bait title then 0 else 5))%Z.
Proof.
  pose proof (raw_score_range U title main_keyword) as Hr.
  rewrite score_unfold.
  replace (Z.max 0 (Z.min 100 (fst (raw_score U title main_keyword))))
    with (fst (raw_score U title main_keyword)) by lia.
  clear Hr.
  unfold raw_score, check_click_bait, check_digit, check_keyword, check_length,
    has_keyword, has_click_bait, length_penalty.
  rewrite !deduct_fst.
  destruct (len title >? 35)%Z; [|destruct (len title <? 10)%Z];
    rewrite ?deduct_fst; cbn [fst];
    destruct (contains (lower U main_keyword) (lower U title));
    destruct (any_digit U title);
    destruct (existsb (fun word => contains word title) click_bait_words);
    cbn [negb]; lia.
Qed.

Lemma length_penalty_range (title : str) : (0 <= length_penalty title <= 15)%Z.
Proof.
  unfold length_penalty.
  destruct (len title >? 35)%Z; [lia|]. destruct (len title <? 10)%Z; lia.
Qed.



(** X5. A title scores the full 100 exactly when it contains the main
    keyword, is 10 to 35 characters long, holds a digit and holds one of
    the listed words. *)
Theorem full_score_iff (U : UnicodeData) (title main_keyword : str) :
  score (evaluate_seo_title U title main_keyword) = 100%Z <->
  has_keyword U title main_keyword = true /\
  (10 <= len title <= 35)%Z /\
  any_digit U title = true /\
  has_click_bait title = true.
Proof.
  rewrite score_deductions. unfold length_penalty.
  destruct (Z.gtb_spec (len title) 35) as [Hl|Hl];
    [|destruct (Z.ltb_spec (len title) 10) as [Hs|Hs]];
    destruct (has_keyword U title main_keyword), (any_digit U title),
      (has_click_bait title);
    split; intros H; try lia; try (repeat split; (reflexivity || lia));
    destruct H as (H1 & H2 & H3 & H4); try discriminate; lia.
Qed.

(** X6. In the list of candidates a title that contains the main keyword
    is never shown in red, and a title that lacks it is never shown in
    green. *)
Theorem keyword_and_color (U : UnicodeData) (title main_keyword : str) :
  (has_keyword U title main_keyword = true ->
   score_color (score (evaluate_seo_title U title main_keyword)) <> lit "red") /\
  (has_keyword U title main_keyword = false ->
   score_color (score (evaluate_seo_title U title main_keyword)) <> lit "green").
Proof.
  rewrite score_deductions. unfold score_color.
  pose proof (length_penalty_range title).
  split; intros ->;
    destruct (any_digit U title), (has_click_bait title);
    repeat match goal with
           | |- context [(?a >=? ?b)%Z] => destruct (Z.geb_spec a b); try lia
           end; discriminate.
Qed.

(** Setting a key leaves the other keys alone and is read back. *)
Lemma str_eqb_eq (a b : str) : str_eqb a b = true <-> a = b.
Proof.
  revert b. induction a as [|x a IH]; intros [|y b]; simpl;
    try (split; (reflexivity || discriminate)).
  rewrite andb_true_iff, N.eqb_eq, IH. split.
  - intros [-> ->]. reflexivity.
  - intros H. injection H as -> ->. now split.
Qed.

Lemma dict_get_set {V : Type} (d : dict V) (k k' : str) (v : V) :
  dict_get (dict_set d k v) k' =
  if str_eqb k k' then Some v else dict_get d k'.
Proof.
  induction d as [|[k0 v0] d IH]; simpl.
  - reflexivity.
  - destruct (str_eqb k0 k) eqn:E0; simpl.
    + apply str_eqb_eq in E0. subst k0.
      destruct (str_eqb k k'); reflexivity.
    + destruct (str_eqb k0 k') eqn:E1; [|exact IH].
      apply str_eqb_eq in E1. subst k0.
      destruct (str_eqb k k') eqn:E2; [|reflexivity].
      apply str_eqb_eq in E2. subst k'.
      assert (E : str_eqb k k = true) by now apply str_eqb_eq.
      congruence.
Qed.

Lemma build_title_scores_get (U : UnicodeData) (main_keyword : str)
    (titles : list str) (d : dict TitleScore) (title : str) :
  dict_get
    (fold_left
       (fun title_scores t =>
          dict_set title_scores t (evaluate_seo_title U t main_keyword))
       titles d) title
  = if existsb (fun t => str_eqb t title) titles
    then Some (evaluate_seo_title U title main_keyword)
    else dict_get d title.
Proof.
  revert d. induction titles as [|t titles IH]; intros d; simpl.
  - reflexivity.
  - rewrite IH, dict_get_set.
    destruct (existsb (fun t0 => str_eqb t0 title) titles);
      [now rewrite orb_true_r|].
    rewrite orb_false_r. destruct (str_eqb t title) eqn:E; [|reflexivity].
    apply str_eqb_eq in E. now subst.
Qed.

(** X7. Every generated title finds its own evaluation in [title_scores],
    also when the list repeats a title; the default entry with score 0 is
    only used for a title that was not generated. *)
Theorem score_data_of_generated (U : UnicodeData) (titles : list str)
    (main_keyword title : str) :
  In title titles ->
  score_data (build_title_scores U titles main_keyword) title
  = evaluate_seo_title U title main_keyword.
Proof.
  intros Hin. unfold score_data, build_title_scores.
  rewrite build_title_scores_get.
  assert (E : existsb (fun t => str_eqb t title) titles = true).
  { apply existsb_exists. exists title. split; [exact Hin|].
    now apply str_eqb_eq. }
  now rewrite E.
Qed.

Lemma score_data_of_generated_witness :
  score_data (build_title_scores basic_latin [lit "A"; lit "B"; lit "A"] (lit "a"))
             (lit "A")
  = evaluate_seo_title basic_latin (lit "A") (lit "a").
Proof.
  apply score_data_of_generated. left. reflexivity.
Defined.

(** ** More on the keyword density *)

Lemma findall_words_none (U : UnicodeData) (s : str) :
  Forall (fun c => is_word U c = false) s -> findall_words U [] s = [].
Proof.
  induction 1 as [|c s Hc _ IH]; simpl; [reflexivity|].
  now rewrite Hc.
Qed.

(** X8. A text without any word character (empty, or punctuation and
    whitespace only) has 0 words and density 0, and is told that the
    density is too low, whatever the keyword is. *)
Theorem density_without_words (U : UnicodeData) (text keyword : str) :
  Forall (fun c => is_word U c = false) (sub_markup text) ->
  total_words (analyze_keyword_density U text keyword) = 0%Z /\
  density (analyze_keyword_density U text keyword) = PyInt 0 /\
  recommendation (analyze_keyword_density U text keyword)
  = lit "キーワード密度が低すぎます。記事内でキーワードをもう少し使用することを検討してください。".
Proof.
  intros H. unfold analyze_keyword_density.
  cbn [total_words density recommendation].
  rewrite (findall_words_none U H). repeat split; reflexivity.
Qed.

Lemma density_without_words_witness :
  total_words (analyze_keyword_density basic_latin (lit "**。!** ...") (lit "。")) = 0%Z /\
  density (analyze_keyword_density basic_latin (lit "**。!** ...") (lit "。")) = PyInt 0 /\
  recommendation (analyze_keyword_density basic_latin (lit "**。!** ...") (lit "。"))
  = lit "キーワード密度が低すぎます。記事内でキーワードをもう少し使用することを検討してください。".
Proof.
  apply density_without_words. repeat constructor.
Defined.

Lemma startswith_length (q s : str) :
  startswith q s = true -> (length q <= length s)%nat.
Proof.
  intros H. destruct (startswith_prefix _ _ H) as [r ->].
  rewrite length_app. lia.
Qed.

(** The occurrences counted do not overlap: together they fit in what is
    left of the text after the characters still to be passed. *)
Lemma count_from_fits (sub s : str) (skip : nat) :
  sub <> [] -> (skip <= length s)%nat ->
  (count_from sub skip s * length sub <= length s - skip)%nat.
Proof.
  intros Hsub. revert skip.
  induction s as [|c s IH]; intros skip Hskip; [simpl; lia|].
  destruct skip as [|k]; cbn [count_from].
  - destruct (startswith sub (c :: s)) eqn:E.
    + apply startswith_length in E. simpl length in *.
      assert (Hl : (1 <= length sub)%nat) by (destruct sub; [contradiction|simpl; lia]).
      specialize (IH (length sub - 1)%nat ltac:(lia)).
      simpl. lia.
    + specialize (IH 0%nat ltac:(lia)). simpl length. lia.
  - simpl length in *. specialize (IH k ltac:(lia)). lia.
Qed.

(** X9. The occurrences of the keyword are counted without overlap: when
    the lower-cased keyword is not empty, [keyword_count] times its length
    is at most the length of the lower-cased, markup-free text. *)
Theorem keyword_occurrences_fit (U : UnicodeData) (text keyword : str) :
  lower U keyword <> [] ->
  (keyword_count (analyze_keyword_density U text keyword)
   * len (lower U keyword) <= len (lower U (sub_markup text)))%Z.
Proof.
  intros H. unfold analyze_keyword_density. cbn [keyword_count].
  unfold count. destruct (lower U keyword) as [|c kw] eqn:E; [contradiction|].
  pose proof (@count_from_fits (c :: kw) (lower U (sub_markup text)) 0
                ltac:(discriminate) ltac:(lia)) as Hfit.
  unfold len. lia.
Qed.

Lemma keyword_occurrences_fit_witness :
  (keyword_count (analyze_keyword_density basic_latin (lit "aaaaa") (lit "AA"))
   * len (lower basic_latin (lit "AA"))
   <= len (lower basic_latin (sub_markup (lit "aaaaa"))))%Z.
Proof.
  apply keyword_occurrences_fit. discriminate.
Defined.

Lemma startswith_incl (q s : str) : startswith q s = true -> incl q s.
Proof.
  intros H. destruct (startswith_prefix _ _ H) as [r ->].
  apply incl_appl, incl_refl.
Qed.

(** A text that lacks a character of [sub] holds no occurrence of it. *)
Lemma count_from_absent (sub s : str) (skip : nat) (m : codepoint) :
  In m sub -> ~ In m s -> count_from sub skip s = 0%nat.
Proof.
  intros Hm. revert skip. induction s as [|c s IH]; intros skip Hs;
    [reflexivity|].
  assert (Hs' : ~ In m s) by (intros Hin; apply Hs; now right).
  destruct skip as [|k]; cbn [count_from]; [|now apply IH].
  destruct (startswith sub (c :: s)) eqn:E; [|now apply IH].
  exfalso. apply Hs. exact (startswith_incl _ _ E m Hm).
Qed.

Lemma sub_markup_clean (text : str) (c : codepoint) :
  In c (sub_markup text) -> is_markup c = false.
Proof.
  unfold sub_markup. intros H. apply filter_In in H.
  destruct H as [_ H]. now apply negb_true_iff in H.
Qed.

Lemma lower_from_no_markup (U : UnicodeData) (s before : str) (d : codepoint) :
  lower_makes_no_markup U ->
  (forall c, In c s -> is_markup c = false) ->
  In d (lower_from U before s) -> is_markup d = false.
Proof.
  intros HU. revert before.
  induction s as [|c s IH]; intros before Hs Hd; simpl in Hd; [contradiction|].
  apply in_app_or in Hd. destruct Hd as [Hd|Hd].
  - destruct (c =? 931)%N.
    + destruct Hd as [<-|[]]. unfold lower_sigma.
      match goal with |- context [if ?b then _ else _] => destruct b end;
        reflexivity.
    + destruct (is_markup d) eqn:E; [|reflexivity].
      rewrite <- (Hs c (or_introl eq_refl)). symmetry. exact (HU c d Hd E).
  - apply (IH (c :: before)); [|exact Hd].
    intros x Hx. apply Hs. now right.
Qed.

(** X10. The text is searched after its markup characters were removed,
    the keyword is not cleaned: a keyword that holds one of the characters
    [# * _ - [ ] ( ) `], such as e-mail, is never found and counts 0. *)
Theorem keyword_with_markup_never_found (U : UnicodeData)
    (text keyword : str) (m : codepoint) :
  lower_makes_no_markup U ->
  In m (lower U keyword) -> is_markup m = true ->
  keyword_count (analyze_keyword_density U text keyword) = 0%Z.
Proof.
  intros HU Hm Hmark. unfold analyze_keyword_density. cbn [keyword_count].
  unfold count. destruct (lower U keyword) as [|c kw] eqn:E; [contradiction|].
  rewrite (@count_from_absent (c :: kw) _ 0 m Hm); [reflexivity|].
  intros Hin.
  apply (@lower_from_no_markup U (sub_markup text) [] m HU) in Hin.
  - congruence.
  - intros x Hx. exact (sub_markup_clean _ _ Hx).
Qed.

Lemma keyword_with_markup_never_found_witness :
  keyword_count
    (analyze_keyword_density basic_latin (lit "Send an e-mail. E-mail!") (lit "e-mail"))
  = 0%Z.
Proof.
  apply (@keyword_with_markup_never_found basic_latin _ _ 45%N).
  - intros c d [<-|[]] H. unfold ascii_lower in H.
    destruct (is_upper_ascii c) eqn:E; [exfalso|exact H].
    unfold is_upper_ascii in E. apply andb_prop in E. destruct E as [E1 E2].
    apply N.leb_le in E1. apply N.leb_le in E2.
    unfold is_markup in H.
    repeat (apply orb_prop in H; destruct H as [H|H]);
      apply N.eqb_eq in H; lia.
  - vm_compute. tauto.
  - reflexivity.
Defined.

(** X11. Markup characters in the text are invisible to the density and
    the readability analysis: adding or removing one anywhere changes
    neither result. *)
Theorem markup_is_invisible (U : UnicodeData) (before after keyword : str)
    (m : codepoint) :
  is_markup m = true ->
  analyze_keyword_density U (before ++ m :: after) keyword
  = analyze_keyword_density U (before ++ after) keyword /\
  analyze_readability (before ++ m :: after)
  = analyze_readability (before ++ after).
Proof.
  intros Hm.
  assert (E : sub_markup (before ++ m :: after) = sub_markup (before ++ after)).
  { unfold sub_markup. rewrite !filter_app. simpl. now rewrite Hm. }
  unfold analyze_keyword_density, analyze_readability. now rewrite E.
Qed.

Lemma markup_is_invisible_witness :
  analyze_keyword_density basic_latin (lit "a " ++ 42%N :: lit "b") (lit "b")
  = analyze_keyword_density basic_latin (lit "a " ++ lit "b") (lit "b") /\
  analyze_readability (lit "a " ++ 42%N :: lit "b")
  = analyze_readability (lit "a " ++ lit "b").
Proof.
  apply markup_is_invisible. reflexivity.
Defined.

(** ** More on the heading structure *)

Lemma filter_cons_length (f : str -> bool) (l : str) (ls : list str) :
  length (filter f (l :: ls))
  = ((if f l then 1 else 0) + length (filter f ls))%nat.
Proof. simpl. destruct (f l); reflexivity. Qed.

Lemma level_line_hashes (k : nat) (l : str) :
  is_level_line k l = true -> leading_hashes l = k.
Proof.
  unfold is_level_line. intros H. apply andb_prop in H.
  now apply Nat.eqb_eq.
Qed.

(** A line is a heading of one level at most, so the six filters together
    keep no more lines than there are. *)
Lemma level_lines_total (ls : list str) :
  (length (filter (is_level_line 1) ls) + length (filter (is_level_line 2) ls)
   + length (filter (is_level_line 3) ls) + length (filter (is_level_line 4) ls)
   + length (filter (is_level_line 5) ls) + length (filter (is_level_line 6) ls)
   <= length ls)%nat.
Proof.
  induction ls as [|l ls IH]; [simpl; lia|].
  rewrite !filter_cons_length. simpl length.
  destruct (is_level_line 1 l) eqn:E1; try apply level_line_hashes in E1;
  destruct (is_level_line 2 l) eqn:E2; try apply level_line_hashes in E2;
  destruct (is_level_line 3 l) eqn:E3; try apply level_line_hashes in E3;
  destruct (is_level_line 4 l) eqn:E4; try apply level_line_hashes in E4;
  destruct (is_level_line 5 l) eqn:E5; try apply level_line_hashes in E5;
  destruct (is_level_line 6 l) eqn:E6; try apply level_line_hashes in E6;
    lia.
Qed.

(** X12. The six heading counts are not negative and add up to at most the
    number of lines of the text: no line is counted twice. *)
Theorem heading_counts_total (text : str) :
  (0 <= h1 (counts (analyze_headings text)) /\
   0 <= h2 (counts (analyze_headings text)) /\
   0 <= h3 (counts (analyze_headings text)) /\
   0 <= h4 (counts (analyze_headings text)) /\
   0 <= h5 (counts (analyze_headings text)) /\
   0 <= h6 (counts (analyze_headings text)) /\
   h1 (counts (analyze_headings text)) + h2 (counts (analyze_headings text))
   + h3 (counts (analyze_headings text)) + h4 (counts (analyze_headings text))
   + h5 (counts (analyze_headings text)) + h6 (counts (analyze_headings text))
   <= len_list (lines text))%Z.
Proof.
  unfold analyze_headings. cbn [counts h1 h2 h3 h4 h5 h6].
  rewrite !findall_heading. unfold level_lines, len_list.
  pose proof (level_lines_total (lines text)). lia.
Qed.

(** X13. The analysis tab always says something about the headings of an
    analysed text: the success message exactly when the structure is
    good, and otherwise at least one warning. *)
Theorem heading_notices_complete (text : str) :
  heading_notices (analyze_headings text) <> [] /\
  (is_good_structure (analyze_headings text) = true <->
   heading_notices (analyze_headings text)
   = [Success (lit "見出し構造は適切です")]) /\
  (is_good_structure (analyze_headings text) = false ->
   exists message rest,
     heading_notices (analyze_headings text) = Warning message :: rest).
Proof.
  unfold analyze_headings, heading_notices.
  cbn [is_good_structure has_h1 has_h2 too_many_h1].
  destruct (Z.gtb_spec (findall_bol_count (heading_prefix 1) text) 0) as [A|A];
  destruct (Z.gtb_spec (findall_bol_count (heading_prefix 2) text) 0) as [B|B];
  destruct (Z.gtb_spec (findall_bol_count (heading_prefix 1) text) 1) as [C|C];
    try lia; cbn [andb negb app];
    (split; [discriminate|split; [split; (reflexivity || discriminate)|]]);
    intros H; try discriminate H; eauto.
Qed.

(** ** More on the readability *)

Lemma split_blank_pieces (s cur : str) (k : nat) :
  all_space cur -> all_space s -> Forall all_space (split_blank k cur s).
Proof.
  unfold all_space. revert cur k.
  induction s as [|c s IH]; intros cur k Hcur Hs; simpl.
  - constructor; [now apply Forall_rev|constructor].
  - inversion Hs as [|? ? Hc Hs']; subst.
    destruct k as [|k]; [|now apply IH].
    destruct (if (c =? nl)%N then blank_tail s else None).
    + constructor; [now apply Forall_rev|]. apply IH; [constructor|assumption].
    + apply IH; [now constructor|assumption].
Qed.

(** X14. A text that is blank once its markup characters are removed
    (empty, whitespace, or markup only) has no paragraph and no sentence;
    both averages are the integer 0 and the readability counts as good. *)
Theorem readability_of_blank_text (text : str) :
  all_space (sub_markup text) ->
  analyze_readability text = empty_readability.
Proof.
  intros H. unfold analyze_readability.
  assert (Hp : stripped_nonempty (split_blank 0 [] (sub_markup text)) = []).
  { apply stripped_nonempty_nil. apply split_blank_pieces; [constructor|exact H]. }
  rewrite Hp, (no_paragraph_no_sentence _ Hp). reflexivity.
Qed.

Lemma readability_of_blank_text_witness :
  analyze_readability (lit "# ** " ++ [nl; nl] ++ lit " --- ") = empty_readability.
Proof.
  apply readability_of_blank_text. repeat constructor.
Defined.

(** X15. The counts of a readability result are consistent: the long
    paragraphs are among the paragraphs, and a text that has a sentence has
    a paragraph. *)
Theorem readability_counts_consistent (text : str) :
  (0 <= long_paragraphs_count (analyze_readability text)
     <= paragraph_count (analyze_readability text))%Z /\
  ((0 < sentence_count (analyze_readability text))%Z ->
   (0 < paragraph_count (analyze_readability text))%Z).
Proof.
  unfold analyze_readability.
  cbn [long_paragraphs_count paragraph_count sentence_count].
  pose proof (no_paragraph_no_sentence (sub_markup text)) as Hnone.
  set (paragraphs := stripped_nonempty (split_blank 0 [] (sub_markup text))) in *.
  split.
  - unfold len_list.
    pose proof (filter_length_le (fun p => (len p >? 100)%Z) paragraphs). lia.
  - destruct paragraphs as [|p ps].
    + rewrite Hnone by reflexivity. simpl. lia.
    + intros _. unfold len_list. simpl length. lia.
Qed.

(** ** Splitting and joining *)

Lemma split_char_app (c : codepoint) (a b cur : str) :
  split_char c cur (a ++ c :: b) = split_char c cur a ++ split_char c [] b.
Proof.
  revert cur. induction a as [|x a IH]; intros cur; simpl.
  - now rewrite N.eqb_refl.
  - destruct (x =? c)%N; [now rewrite IH|apply IH].
Qed.

Lemma split_char_single (c : codepoint) (a cur : str) :
  ~ In c a -> split_char c cur a = [rev cur ++ a].
Proof.
  revert cur. induction a as [|x a IH]; intros cur H; simpl.
  - now rewrite app_nil_r.
  - destruct (N.eqb_spec x c) as [->|_]; [exfalso; apply H; now left|].
    rewrite IH by (intros Hin; apply H; now right).
    simpl. now rewrite <- app_assoc.
Qed.

Lemma split_char_pieces (c : codepoint) (s cur : str) :
  ~ In c cur -> Forall (fun p => ~ In c p) (split_char c cur s).
Proof.
  revert cur. induction s as [|x s IH]; intros cur H; simpl.
  - constructor; [|constructor]. intros Hin. apply H. now apply in_rev.
  - destruct (N.eqb_spec x c) as [->|Hx].
    + constructor; [|apply IH; intros []].
      intros Hin. apply H. now apply in_rev.
    + apply IH. intros [E|Hin]; [congruence|contradiction].
Qed.

(** The lines of a joined list of one-line texts are those texts. *)
Lemma split_char_join (c : codepoint) (p : str) (ps : list str) :
  Forall (fun q => ~ In c q) (p :: ps) ->
  split_char c [] (join [c] (p :: ps)) = p :: ps.
Proof.
  revert p. induction ps as [|q ps IH]; intros p H.
  - inversion H; subst. simpl. now apply (split_char_single c p []).
  - inversion H as [|? ? Hp Hrest]; subst.
    change (join [c] (p :: q :: ps)) with (p ++ c :: join [c] (q :: ps)).
    rewrite split_char_app, (split_char_single c p []) by assumption.
    rewrite IH by assumption. reflexivity.
Qed.

(** ** The related keywords *)

Lemma stripped_nonempty_In (parts : list str) (kw : str) :
  In kw (stripped_nonempty parts) ->
  exists p, In p parts /\ kw = strip p /\ kw <> [].
Proof.
  unfold stripped_nonempty. intros H. apply in_map_iff in H.
  destruct H as [p [E H]]. apply filter_In in H. destruct H as [Hp Ht].
  exists p. repeat split; [assumption|now symmetry|].
  subst kw. destruct (strip p); [discriminate|discriminate].
Qed.

Lemma parse_related_keywords_clean (related_keywords_input : str) :
  Forall clean_keyword (parse_related_keywords related_keywords_input).
Proof.
  unfold parse_related_keywords.
  destruct (truthy related_keywords_input); [|constructor].
  apply Forall_forall. intros kw H.
  apply stripped_nonempty_In in H. destruct H as [p [Hp [-> Hne]]].
  pose proof (split_char_pieces 44%N related_keywords_input [] (fun F => F)) as Hc.
  rewrite Forall_forall in Hc. specialize (Hc p Hp).
  repeat split; [exact Hne|apply strip_idem|].
  intros Hin. apply Hc. rewrite strip_trim in Hin. exact (trim_In _ _ _ Hin).
Qed.

(** X16. Every related keyword taken from the input field is not empty,
    has no whitespace at its ends and holds no comma. *)
Theorem related_keywords_are_clean (related_keywords_input : str) :
  Forall clean_keyword (parse_related_keywords related_keywords_input).
Proof. apply parse_related_keywords_clean. Qed.

Lemma split_joined_keywords (kw : str) (kws : list str) (pre : str) :
  ~ In 44%N pre -> Forall clean_keyword (kw :: kws) ->
  split_char 44%N [] (pre ++ join (lit ", ") (kw :: kws))
  = (pre ++ kw) :: map (cons 32%N) kws.
Proof.
  revert kw pre. induction kws as [|k kws IH]; intros kw pre Hpre H.
  - inversion H as [|? ? (_ & _ & Hc) _]; subst. simpl.
    apply (split_char_single 44%N (pre ++ kw) []).
    intros Hin. apply in_app_or in Hin. tauto.
  - inversion H as [|? ? (_ & _ & Hc) Hrest]; subst.
    change (join (lit ", ") (kw :: k :: kws))
      with (kw ++ 44%N :: [32%N] ++ join (lit ", ") (k :: kws)).
    rewrite app_assoc, split_char_app.
    rewrite (split_char_single 44%N (pre ++ kw) []).
    2:{ intros Hin. apply in_app_or in Hin. tauto. }
    cbn [rev app]. f_equal.
    apply (IH k [32%N]); [|assumption].
    intros [E|[]]. discriminate.
Qed.

Lemma stripped_nonempty_spaced (kws : list str) :
  Forall clean_keyword kws ->
  stripped_nonempty (map (cons 32%N) kws) = kws.
Proof.
  unfold stripped_nonempty.
  induction 1 as [|kw kws (Hne & Hs & _) _ IH]; [reflexivity|].
  cbn [map filter].
  assert (E : strip (32%N :: kw) = kw) by (unfold strip in *; exact Hs).
  rewrite E. destruct kw as [|c kw]; [contradiction|].
  cbn [truthy map]. rewrite E. now f_equal.
Qed.

(** X17. The keywords are shown joined by a comma and a space; typing
    that text into the input field again gives the same keywords. *)
Theorem related_keywords_round_trip (related_keywords_input : str) :
  parse_related_keywords
    (join (lit ", ") (parse_related_keywords related_keywords_input))
  = parse_related_keywords related_keywords_input.
Proof.
  pose proof (parse_related_keywords_clean related_keywords_input) as H.
  destruct (parse_related_keywords related_keywords_input) as [|kw kws];
    [reflexivity|].
  unfold parse_related_keywords.
  assert (Ht : truthy (join (lit ", ") (kw :: kws)) = true).
  { inversion H as [|? ? (Hne & _) _]; subst.
    destruct kw as [|c kw]; [contradiction|]. destruct kws; reflexivity. }
  rewrite Ht.
  pose proof (@split_joined_keywords kw kws [] (fun F => F) H) as Hsplit.
  cbn [app] in Hsplit. rewrite Hsplit. clear Hsplit.
  inversion H as [|? ? (Hne & Hs & Hc) Hrest]; subst.
  unfold stripped_nonempty. cbn [app filter map]. rewrite Hs.
  destruct kw as [|c kw]; [contradiction|]. cbn [truthy map]. rewrite Hs.
  f_equal. exact (stripped_nonempty_spaced Hrest).
Qed.

(** ** The fallback titles *)

Lemma strip_char_no_edge (c : codepoint) (s : str) : no_edge c (strip_char c s).
Proof.
  unfold no_edge, strip_char, endswith. split.
  - destruct (trim (fun x => (x =? c)%N) s) as [|x r] eqn:E; [reflexivity|].
    apply trim_head in E. simpl. now rewrite N.eqb_sym, E.
  - destruct (rev (trim (fun x => (x =? c)%N) s)) as [|x r] eqn:E;
      [reflexivity|].
    apply (f_equal (@rev codepoint)) in E. rewrite rev_involutive in E.
    simpl in E. apply trim_last in E. simpl. now rewrite N.eqb_sym, E.
Qed.

Lemma firstn_In {A : Type} (n : nat) (l : list A) (x : A) :
  In x (firstn n l) -> In x l.
Proof.
  intros H. rewrite <- (firstn_skipn n l). apply in_or_app. now left.
Qed.

(** X18. The text fallback returns five titles at most; none of them is
    empty and none starts or ends with a comma. *)
Theorem fallback_titles_usable (content : str) :
  (length (fallback_titles content) <= 5)%nat /\
  Forall (fun title => title <> [] /\ no_edge 44%N title)
         (fallback_titles content).
Proof.
  unfold fallback_titles. split; [apply firstn_le_length|].
  apply Forall_forall. intros title H.
  apply firstn_In in H. apply in_flat_map in H.
  destruct H as [line [_ H]]. unfold fallback_line in H.
  destruct (truthy (strip line) && negb (startswith (lit "{") (strip line))
            && negb (startswith (lit "}") (strip line))); [|contradiction].
  destruct (strip_char 44%N (strip_char 39%N (strip_char 34%N (strip line))))
    as [|c r] eqn:E; [contradiction|].
  destruct H as [<-|[]]. split; [discriminate|].
  rewrite <- E. apply strip_char_no_edge.
Qed.

(** ** More on the table of contents *)

Lemma skipn_startswith (q s : str) :
  startswith q s = true -> s = q ++ skipn (length q) s.
Proof.
  intros H. destruct (startswith_prefix _ _ H) as [r ->].
  now rewrite skipn_app, skipn_all, Nat.sub_diag.
Qed.

(** [split_once] cuts the text at an occurrence of the separator, or
    returns it whole. *)
Lemma split_once_spec (sep s cur : str) :
  (exists a b, split_once sep cur s = [a; b] /\ rev cur ++ s = a ++ sep ++ b) \/
  split_once sep cur s = [rev cur ++ s].
Proof.
  revert cur. induction s as [|x s IH]; intros cur.
  - simpl. destruct (startswith sep []) eqn:E.
    + left. exists (rev cur), (skipn (length sep) []). split; [reflexivity|].
      f_equal. exact (skipn_startswith _ _ E).
    + right. now rewrite app_nil_r.
  - cbn [split_once]. destruct (startswith sep (x :: s)) eqn:E.
    + left. exists (rev cur), (skipn (length sep) (x :: s)).
      split; [reflexivity|]. f_equal. exact (skipn_startswith _ _ E).
    + destruct (IH (x :: cur)) as [[a [b [E1 E2]]]|E1].
      * left. exists a, b. split; [exact E1|].
        rewrite <- E2. simpl. now rewrite <- app_assoc.
      * right. rewrite E1. simpl. now rewrite <- app_assoc.
Qed.

(** Where the block goes when the text is changed. *)
Lemma add_toc_shape (U : UnicodeData) (s : str) :
  has_toc s = false -> extract_headings (lines s) <> [] ->
  (exists title_part body_part,
      s = title_part ++ [nl; nl] ++ body_part /\
      add_toc_if_needed U s
      = title_part ++ [nl; nl] ++ toc_block U s ++ [nl; nl] ++ body_part) \/
  add_toc_if_needed U s = s ++ [nl; nl] ++ toc_block U s.
Proof.
  unfold has_toc, add_toc_if_needed, toc_block, toc_lines. intros Hg Hh.
  rewrite Hg. destruct (extract_headings (lines s)) as [|h hs]; [contradiction|].
  destruct (split_once_spec [nl; nl] s []) as [[a [b [E1 E2]]]|E1]; rewrite E1.
  - left. exists a, b. split; [exact E2|reflexivity].
  - right. reflexivity.
Qed.

Lemma toc_block_not_nil (U : UnicodeData) (s : str) : toc_block U s <> [].
Proof. unfold toc_block, toc_lines. discriminate. Qed.

(** The text is changed exactly when the guard is off and a heading was
    found. *)
Lemma add_toc_changed (U : UnicodeData) (markdown_text : str) :
  add_toc_if_needed U markdown_text <> markdown_text <->
  has_toc markdown_text = false /\
  extract_headings (lines markdown_text) <> [].
Proof.
  split.
  - intros H. unfold add_toc_if_needed in H. fold (has_toc markdown_text) in H.
    destruct (has_toc markdown_text); [contradiction|].
    destruct (extract_headings (lines markdown_text)); [contradiction|].
    split; [reflexivity|discriminate].
  - intros [Hg Hh] E.
    pose proof (@toc_block_not_nil U markdown_text) as Hb.
    destruct (toc_block U markdown_text) as [|c blk] eqn:Eb; [contradiction|].
    destruct (add_toc_shape U markdown_text Hg Hh) as [[a [b [Es Er]]]|Er];
      rewrite Er, Eb in E; apply (f_equal (@length codepoint)) in E.
    + rewrite Es in E. repeat (rewrite length_app in E; simpl in E). lia.
    + repeat (rewrite length_app in E; simpl in E). lia.
Qed.

(** X19. The text comes back changed exactly when it holds neither marker
    and has a heading of level 2 or 3; this is when the app reports that a
    table of contents was added. *)
Theorem add_toc_changes_iff (U : UnicodeData) (markdown_text : str) :
  add_toc_if_needed U markdown_text <> markdown_text <->
  has_toc markdown_text = false /\
  extract_headings (lines markdown_text) <> [].
Proof. apply add_toc_changed. Qed.

(** [split_once] on a blank line: the text has none and comes back whole,
    or it is cut at the first one. *)
Lemma split_once_first (s cur : str) :
  (contains [nl; nl] s = false /\
   split_once [nl; nl] cur s = [rev cur ++ s]) \/
  (exists a b, s = a ++ [nl; nl] ++ b /\ before_first_blank_line a /\
               split_once [nl; nl] cur s = [rev cur ++ a; b]).
Proof.
  unfold before_first_blank_line. revert cur.
  induction s as [|x s IH]; intros cur.
  - left. split; [reflexivity|]. simpl. now rewrite app_nil_r.
  - cbn [split_once]. rewrite (contains_unfold [nl; nl] (x :: s)).
    destruct (startswith [nl; nl] (x :: s)) eqn:E.
    + right. exists [], (skipn 2 (x :: s)). repeat split.
      * exact (skipn_startswith _ _ E).
      * now rewrite app_nil_r.
    + destruct (IH (x :: cur)) as [[Hc Hs]|[a [b [Es [Hf Hs]]]]].
      * left. split; [exact Hc|].
        rewrite Hs. simpl. now rewrite <- app_assoc.
      * right. exists (x :: a), b. repeat split.
        -- simpl. now rewrite Es.
        -- rewrite (contains_unfold [nl; nl] ((x :: a) ++ [nl])).
           cbn [app]. rewrite Hf, orb_false_r.
           rewrite Es in E. cbn [startswith] in E |- *.
           destruct (nl =? x)%N; [|reflexivity].
           destruct a as [|y a]; [discriminate E|exact E].
        -- rewrite Hs. simpl. now rewrite <- app_assoc.
Qed.

(** X20. Adding the table of contents only inserts text, at a place the
    text decides.  When the text has a blank line, the block and a blank
    line go right after the first one, and what stood before and after is
    kept.  When it has none, a blank line and the block are put at the
    end. *)
Theorem add_toc_only_inserts (U : UnicodeData) (markdown_text : str) :
  add_toc_if_needed U markdown_text <> markdown_text ->
  (contains [nl; nl] markdown_text = true /\
   exists title_part body_part,
     markdown_text = title_part ++ [nl; nl] ++ body_part /\
     before_first_blank_line title_part /\
     add_toc_if_needed U markdown_text
     = title_part ++ [nl; nl] ++ toc_block U markdown_text
         ++ [nl; nl] ++ body_part) \/
  (contains [nl; nl] markdown_text = false /\
   add_toc_if_needed U markdown_text
   = markdown_text ++ [nl; nl] ++ toc_block U markdown_text).
Proof.
  intros H. apply add_toc_changed in H. destruct H as [Hg Hh].
  unfold add_toc_if_needed, toc_block, toc_lines.
  fold (has_toc markdown_text). rewrite Hg.
  destruct (extract_headings (lines markdown_text)) as [|h hs];
    [contradiction|].
  destruct (split_once_first markdown_text [])
    as [[Hc Hs]|[a [b [Es [Hf Hs]]]]]; rewrite Hs.
  - right. split; [exact Hc|reflexivity].
  - left. split.
    + rewrite Es. apply contains_app.
    + exists a, b. repeat split; [exact Es|exact Hf].
Qed.

Lemma add_toc_only_inserts_witness :
  (contains [nl; nl] (lit "# T" ++ [nl; nl] ++ lit "## A") = true /\
   exists title_part body_part,
     lit "# T" ++ [nl; nl] ++ lit "## A" = title_part ++ [nl; nl] ++ body_part /\
     before_first_blank_line title_part /\
     add_toc_if_needed basic_latin (lit "# T" ++ [nl; nl] ++ lit "## A")
     = title_part ++ [nl; nl]
         ++ toc_block basic_latin (lit "# T" ++ [nl; nl] ++ lit "## A")
         ++ [nl; nl] ++ body_part) \/
  (contains [nl; nl] (lit "# T" ++ [nl; nl] ++ lit "## A") = false /\
   add_toc_if_needed basic_latin (lit "# T" ++ [nl; nl] ++ lit "## A")
   = (lit "# T" ++ [nl; nl] ++ lit "## A") ++ [nl; nl]
       ++ toc_block basic_latin (lit "# T" ++ [nl; nl] ++ lit "## A")).
Proof.
  apply add_toc_only_inserts. vm_compute. discriminate.
Defined.

Lemma dot_run_no_nl (s : str) : ~ In nl (fst (dot_run s)).
Proof.
  induction s as [|c s IH]; simpl; [tauto|].
  destruct (N.eqb_spec c nl) as [->|Hc]; [simpl; tauto|].
  destruct (dot_run s) as [d r]. simpl in *. intros [E|Hin]; [congruence|tauto].
Qed.

Lemma dot_plus_eol_no_nl (s g : str) : dot_plus_eol s = Some g -> ~ In nl g.
Proof.
  unfold dot_plus_eol. pose proof (dot_run_no_nl s) as H.
  destruct (dot_run s) as [d r]. simpl in H.
  destruct d as [|c d]; [discriminate|].
  destruct r as [|x [|y r]]; try discriminate; intros E; injection E as <-;
    exact H.
Qed.

Lemma spaces_then_rest_no_nl (s g : str) :
  spaces_then_rest s = Some g -> ~ In nl g.
Proof.
  induction s as [|c s IH]; simpl; [discriminate|].
  destruct (is_space c).
  - destruct (spaces_then_rest s) as [g'|].
    + intros E. injection E as <-. now apply IH.
    + apply dot_plus_eol_no_nl.
  - apply dot_plus_eol_no_nl.
Qed.

Lemma match_heading_spec (line g : str) (level : nat) :
  match_heading line = Some (level, g) ->
  (1 <= level <= 3)%nat /\ ~ In nl g.
Proof.
  assert (H : forall k r, hashes_then k line = Some r ->
                          fst r = k /\ ~ In nl (snd r)).
  { intros k r. unfold hashes_then, space_plus_rest.
    destruct (startswith (repeat hash k) line); [|discriminate].
    destruct (skipn k line) as [|c s]; [discriminate|].
    destruct (is_space c); [|discriminate].
    destruct (spaces_then_rest s) as [g'|] eqn:E; [|discriminate].
    intros E'. injection E' as <-. split; [reflexivity|].
    exact (spaces_then_rest_no_nl _ E). }
  unfold match_heading.
  destruct (hashes_then 3 line) as [r|] eqn:E3.
  - intros E. injection E as ->. destruct (H _ _ E3) as [Hk Hn].
    simpl in Hk, Hn. split; [lia|exact Hn].
  - destruct (hashes_then 2 line) as [r|] eqn:E2.
    + intros E. injection E as ->. destruct (H _ _ E2) as [Hk Hn].
      simpl in Hk, Hn. split; [lia|exact Hn].
    + intros E1. destruct (H _ _ E1) as [Hk Hn]. simpl in Hk, Hn.
      split; [lia|exact Hn].
Qed.

Lemma strip_In (s : str) (x : codepoint) : In x (strip s) -> In x s.
Proof. rewrite strip_trim. apply trim_In. Qed.

Lemma extract_headings_spec (ls : list str) :
  Forall (fun h => (fst h = 2 \/ fst h = 3)%nat /\
                   strip (snd h) = snd h /\ ~ In nl (snd h))
         (extract_headings ls).
Proof.
  induction ls as [|line ls IH]; simpl; [constructor|].
  destruct (match_heading line) as [[level g]|] eqn:E; [|exact IH].
  destruct (Nat.ltb_spec 1 level) as [Hl|_]; [|exact IH].
  apply match_heading_spec in E. destruct E as [Hr Hn].
  constructor; [|exact IH]. simpl. repeat split.
  - lia.
  - apply strip_idem.
  - intros Hin. apply Hn. exact (strip_In _ _ Hin).
Qed.

(** X21. The headings listed in the table of contents are of level 2 or
    3; the text of each is stripped and holds no line feed. *)
Theorem toc_headings_levels (ls : list str) :
  Forall (fun h => (fst h = 2 \/ fst h = 3)%nat /\
                   strip (snd h) = snd h /\ ~ In nl (snd h))
         (extract_headings ls).
Proof. apply extract_headings_spec. Qed.

(** ** The table of contents under the heading analysis *)

Lemma replace_In (old : codepoint) (new s : str) (x : codepoint) :
  In x (replace old new s) -> In x new \/ In x s.
Proof.
  unfold replace. intros H. apply in_flat_map in H.
  destruct H as [c [Hc H]]. destruct (c =? old)%N; [now left|].
  destruct H as [<-|[]]. now right.
Qed.

Lemma repeat_str_In (s : str) (n : nat) (x : codepoint) :
  In x (repeat_str s n) -> In x s.
Proof.
  induction n as [|n IH]; simpl; [tauto|].
  intros H. apply in_app_or in H. tauto.
Qed.

Lemma lower_from_no_nl (U : UnicodeData) (s before : str) :
  lower_makes_no_newline U -> ~ In nl s -> ~ In nl (lower_from U before s).
Proof.
  intros HU. revert before.
  induction s as [|c s IH]; intros before Hs Hin; simpl in Hin; [contradiction|].
  apply in_app_or in Hin. destruct Hin as [Hin|Hin].
  - destruct (c =? 931)%N.
    + destruct Hin as [E|[]]. unfold lower_sigma in E.
      match type of E with context [if ?b then _ else _] => destruct b end;
        discriminate.
    + apply Hs. left. exact (HU c nl Hin eq_refl).
  - apply (IH (c :: before)); [|exact Hin]. intros H. apply Hs. now right.
Qed.

Lemma toc_entry_one_line (U : UnicodeData) (h : nat * str) :
  lower_makes_no_newline U -> ~ In nl (snd h) -> ~ In nl (toc_entry U h).
Proof.
  intros HU Hh. destruct h as [level text]. simpl in Hh. unfold toc_entry.
  assert (Hlink : ~ In nl (replace 93%N [] (replace 91%N [] text))).
  { intros H. apply replace_In in H. destruct H as [[]|H].
    apply replace_In in H. destruct H as [[]|H]. contradiction. }
  intros H.
  repeat (apply in_app_or in H; destruct H as [H|H]).
  - apply repeat_str_In in H. vm_compute in H. intuition discriminate.
  - vm_compute in H. intuition discriminate.
  - contradiction.
  - vm_compute in H. intuition discriminate.
  - apply replace_In in H. destruct H as [H|H].
    + vm_compute in H. intuition discriminate.
    + revert H. now apply lower_from_no_nl.
  - vm_compute in H. intuition discriminate.
Qed.

Lemma toc_entry_no_hash (U : UnicodeData) (h : nat * str) :
  leading_hashes (toc_entry U h) = 0%nat.
Proof.
  destruct h as [level text]. unfold toc_entry.
  destruct (level - 2)%nat; reflexivity.
Qed.

Lemma toc_lines_one_line (U : UnicodeData) (s : str) :
  lower_makes_no_newline U -> Forall (fun l => ~ In nl l) (toc_lines U s).
Proof.
  intros HU. unfold toc_lines.
  constructor; [vm_compute; intuition discriminate|].
  constructor; [intros []|].
  apply Forall_app. split; [|repeat constructor; intros []].
  apply Forall_forall. intros l Hl. apply in_map_iff in Hl.
  destruct Hl as [h [<- Hh]].
  pose proof (extract_headings_spec (lines s)) as Hlev.
  rewrite Forall_forall in Hlev. destruct (Hlev h Hh) as (_ & _ & Hn).
  now apply toc_entry_one_line.
Qed.

(** Among the inserted lines only the marker line is a heading. *)
Lemma toc_lines_levels (U : UnicodeData) (s : str) (k : nat) :
  (1 <= k)%nat ->
  length (filter (is_level_line k) (toc_lines U s))
  = if (k =? 2)%nat then 1%nat else 0%nat.
Proof.
  intros Hk. unfold toc_lines. cbn [app]. rewrite !filter_cons_length.
  assert (Hent : filter (is_level_line k)
                   (map (toc_entry U) (extract_headings (lines s)) ++ [[]]) = []).
  { rewrite filter_app.
    assert (H0 : forall l, leading_hashes l = 0%nat -> is_level_line k l = false).
    { intros l E. unfold is_level_line. rewrite E.
      destruct k; [lia|reflexivity]. }
    cbn [filter]. rewrite (H0 [] eq_refl), app_nil_r.
    induction (extract_headings (lines s)) as [|h hs IH]; [reflexivity|].
    cbn [map filter]. now rewrite (H0 _ (toc_entry_no_hash U h)). }
  rewrite Hent.
  assert (Hmark : is_level_line k toc_marker = (k =? 2)%nat).
  { unfold is_level_line.
    change (leading_hashes toc_marker) with 2%nat.
    rewrite Nat.eqb_sym. destruct (Nat.eqb_spec k 2) as [->|_]; reflexivity. }
  rewrite Hmark.
  assert (Hnil : is_level_line k [] = false)
    by (unfold is_level_line; destruct k; [lia|reflexivity]).
  rewrite Hnil. destruct (k =? 2)%nat; reflexivity.
Qed.

(** The lines of the changed text are the lines of the text with the
    lines of the block and one empty line put in between. *)
Lemma lines_add_toc (U : UnicodeData) (s : str) :
  lower_makes_no_newline U ->
  add_toc_if_needed U s <> s ->
  exists A B ins,
    lines s = A ++ B /\
    lines (add_toc_if_needed U s) = A ++ ins ++ B /\
    forall k, (1 <= k)%nat ->
      length (filter (is_level_line k) ins) = if (k =? 2)%nat then 1%nat else 0%nat.
Proof.
  intros HU H. apply add_toc_changed in H. destruct H as [Hg Hh].
  assert (Hlines : lines (toc_block U s) = toc_lines U s).
  { unfold toc_block, lines. pose proof (toc_lines_one_line s HU) as Hl.
    unfold toc_lines in *. cbn [app] in *. now apply split_char_join. }
  assert (Hnil : forall k, (1 <= k)%nat -> is_level_line k [] = false).
  { intros k Hk. unfold is_level_line. destruct k; [lia|reflexivity]. }
  destruct (add_toc_shape U s Hg Hh) as [[a [b [Es Er]]]|Er].
  - exists (lines a ++ [[]]), (lines b), (toc_lines U s ++ [[]]).
    repeat split.
    + rewrite Es at 1. unfold lines. cbn [app].
      rewrite split_char_app. fold (lines a). fold (lines (nl :: b)).
      rewrite lines_cons, N.eqb_refl. now rewrite <- app_assoc.
    + rewrite Er. unfold lines. cbn [app].
      rewrite split_char_app. fold (lines a).
      fold (lines (nl :: toc_block U s ++ nl :: nl :: b)).
      rewrite lines_cons, N.eqb_refl. unfold lines.
      rewrite split_char_app. fold (lines (toc_block U s)). fold (lines (nl :: b)).
      rewrite lines_cons, N.eqb_refl, Hlines.
      rewrite <- !app_assoc. reflexivity.
    + intros k Hk. rewrite filter_app, length_app. cbn [filter].
      rewrite (Hnil k Hk), (toc_lines_levels U s Hk). simpl. lia.
  - exists (lines s), [], ([] :: toc_lines U s).
    repeat split.
    + now rewrite app_nil_r.
    + rewrite Er. unfold lines. cbn [app].
      rewrite split_char_app. fold (lines s). fold (lines (nl :: toc_block U s)).
      rewrite lines_cons, N.eqb_refl, Hlines. now rewrite app_nil_r.
    + intros k Hk. cbn [filter].
      rewrite (Hnil k Hk). exact (toc_lines_levels U s Hk).
Qed.

(** X22. When a table of contents is added, the heading analysis of the
    new text finds exactly one more level-2 heading, the marker line, and
    the same number of headings of every other level. *)
Theorem add_toc_adds_one_h2 (U : UnicodeData) (markdown_text : str) :
  lower_makes_no_newline U ->
  add_toc_if_needed U markdown_text <> markdown_text ->
  counts (analyze_headings (add_toc_if_needed U markdown_text))
  = one_more_h2 (counts (analyze_headings markdown_text)).
Proof.
  intros HU H.
  destruct (lines_add_toc HU H) as (A & B & ins & Es & Er & Hins).
  unfold analyze_headings, one_more_h2. cbn [counts h1 h2 h3 h4 h5 h6].
  rewrite !findall_heading. unfold level_lines. rewrite Es, Er.
  rewrite !filter_app, !length_app.
  rewrite !Hins by lia. cbn [Nat.eqb].
  f_equal; lia.
Qed.

Lemma basic_latin_no_newline : lower_makes_no_newline basic_latin.
Proof.
  intros c d [<-|[]] E. unfold ascii_lower in E.
  destruct (is_upper_ascii c) eqn:Eu; [|exact E].
  unfold is_upper_ascii in Eu. apply andb_prop in Eu. destruct Eu as [E1 _].
  apply N.leb_le in E1. unfold nl in E. lia.
Qed.

Lemma add_toc_adds_one_h2_witness :
  counts (analyze_headings
            (add_toc_if_needed basic_latin
               (lit "# T" ++ [nl; nl] ++ lit "## A" ++ [nl] ++ lit "### B")))
  = one_more_h2
      (counts (analyze_headings
                 (lit "# T" ++ [nl; nl] ++ lit "## A" ++ [nl] ++ lit "### B"))).
Proof.
  apply add_toc_adds_one_h2.
  - exact basic_latin_no_newline.
  - vm_compute. discriminate.
Defined.
